(** * NetworkMap: node identity, dump classification, extraction and growth

    A shallow embedding of the Python sources
      - [networkmap/node.py]     (class [Node], [Node.__eq__]),
      - [networkmap/parsers.py]  ([guess_data], [guess_dumpfile_type_and_os],
                                  [parse_linux_tr], [parse_linux_arp],
                                  [parse_windows_arp]),
      - [src/netgrapher.py]      ([parse_windows_arp], [augment_from_arp],
                                  [augment_from_route], [augment_from_tr],
                                  [grow_graph]),
    followed by the properties of the specification, each stated over these
    definitions.

    Python values: [str] is [string]; a value that is either a [str] or
    [None] is [option string]; an exception is a constructor of [exn] and a
    call that can raise returns an [outcome].  The regular expressions are
    kept as the pattern texts of the source and run by a backtracking
    matcher for the part of Python's [re] syntax that the source uses. *)

From Stdlib Require Import String Ascii List Bool Arith NArith Lia.
Import ListNotations.
Local Open Scope string_scope.
Local Open Scope list_scope.

(* ------------------------------------------------------------------ *)
(** ** Exceptions and the error monad *)

Inductive exn : Type :=
| MyException (msg : string)
| NotImplementedError (msg : string)
| UnboundLocalError (var : string)
| AttributeError (attr : string)
| IOError (path : string).

Inductive outcome (A : Type) : Type :=
| Return (a : A)
| Raise (e : exn).

Arguments Return {A} a.
Arguments Raise {A} e.

Definition bind {A B : Type} (c : outcome A) (k : A -> outcome B) : outcome B :=
  match c with
  | Return a => k a
  | Raise e => Raise e
  end.

Notation "x <- c ;; k" := (bind c (fun x => k))
  (at level 61, c at next level, right associativity).

(** Boolean equality of [str]-or-[None] values ([==] of Python on them). *)
Definition pystr_eqb (a b : option string) : bool :=
  match a, b with
  | Some x, Some y => String.eqb x y
  | None, None => true
  | _, _ => false
  end.

Lemma pystr_eqb_spec a b : reflect (a = b) (pystr_eqb a b).
Proof.
  destruct a as [x|], b as [y|]; simpl; try (constructor; congruence).
  destruct (String.eqb_spec x y); constructor; congruence.
Qed.

(** Truth value of a [str]-or-[None]: [None] and the empty string are false. *)
Definition truthy (v : option string) : bool :=
  match v with
  | None => false
  | Some EmptyString => false
  | Some _ => true
  end.

Definition newline : ascii := "010"%char.
Definition nl : string := String newline EmptyString.

(* ------------------------------------------------------------------ *)
(** ** Files *)

(** The file system maps a path to the text of the file, when there is one
    that can be read. *)
Definition filesystem : Type := string -> option string.

(** [f.readlines()]: the lines of the text, each with its line terminator
    (the last one may lack it). *)
Fixpoint readlines (s : string) : list string :=
  match s with
  | EmptyString => []
  | String c s' =>
      if Ascii.eqb c newline then String c EmptyString :: readlines s'
      else match readlines s' with
           | [] => [String c EmptyString]
           | l :: ls => String c l :: ls
           end
  end.

(** [with open(dumpfile) as f: ... f.readlines()] *)
Definition open_readlines (fs : filesystem) (dumpfile : string)
  : outcome (list string) :=
  match fs dumpfile with
  | Some text => Return (readlines text)
  | None => Raise (IOError dumpfile)
  end.

(* ------------------------------------------------------------------ *)
(** ** Regular expressions: the part of Python's [re] the source uses *)

Module re.

(** Members of a character set. *)
Inductive cset : Type :=
| CChar (c : ascii)
| CRange (lo hi : ascii)
| CDigit        (* \d : [0-9] *)
| CWord         (* \w : [a-zA-Z0-9_] *)
| CSpace.       (* \s : [ \t\n\r\f\v] *)

Inductive regex : Type :=
| REmpty
| RChar (c : ascii)
| RAny                          (* .  : any character but a newline *)
| RSet (cs : list cset)         (* [...] and \d \w \s *)
| RBol                          (* ^ *)
| REol                          (* $ *)
| RSeq (r1 r2 : regex)
| RPlus (r : regex)             (* r+ , greedy *)
| RRep (n : nat) (r : regex)    (* r{n} *)
| RGroup (i : nat) (r : regex). (* ( r ), the i-th group *)

Definition between (lo hi c : ascii) : bool :=
  (N_of_ascii lo <=? N_of_ascii c)%N && (N_of_ascii c <=? N_of_ascii hi)%N.

Definition is_digit (c : ascii) : bool := between "0" "9" c.

Definition is_word (c : ascii) : bool :=
  between "a" "z" c || between "A" "Z" c || is_digit c || Ascii.eqb c "_".

Definition is_space (c : ascii) : bool :=
  Ascii.eqb c " " || between "009" "013" c.

Definition in_cset (m : cset) (c : ascii) : bool :=
  match m with
  | CChar a => Ascii.eqb c a
  | CRange lo hi => between lo hi c
  | CDigit => is_digit c
  | CWord => is_word c
  | CSpace => is_space c
  end.

Definition in_set (cs : list cset) (c : ascii) : bool :=
  existsb (fun m => in_cset m c) cs.

(** *** Compiling a pattern text *)

Inductive token : Type :=
| TAtom (r : regex)
| TOpen
| TClose
| TPlus
| TRep (n : nat).

Inductive lexmode : Type :=
| LNormal
| LEscape                                   (* after a backslash *)
| LSet (acc : list cset)                    (* inside [...], reversed *)
| LSetEscape (acc : list cset)              (* after a backslash in [...] *)
| LSetDash (acc : list cset) (lo : ascii)   (* after lo- in [...] *)
| LBrace (n : option nat).                  (* inside {...} *)

Definition is_alpha (c : ascii) : bool :=
  between "a" "z" c || between "A" "Z" c.

(** The atom of an escape sequence; [None] for one that is not handled. *)
Definition escape_class (c : ascii) : option cset :=
  if Ascii.eqb c "s" then Some CSpace
  else if Ascii.eqb c "d" then Some CDigit
  else if Ascii.eqb c "w" then Some CWord
  else if is_alpha c || is_digit c then None
  else Some (CChar c).

Definition digit_val (c : ascii) : nat :=
  N.to_nat (N_of_ascii c - 48).

Fixpoint lex (m : lexmode) (s : string) : option (list token) :=
  match s with
  | EmptyString =>
      match m with
      | LNormal => Some []
      | _ => None
      end
  | String c s' =>
      match m with
      | LNormal =>
          if Ascii.eqb c "\" then lex LEscape s'
          else if Ascii.eqb c "[" then lex (LSet []) s'
          else if Ascii.eqb c "{" then lex (LBrace None) s'
          else if Ascii.eqb c "*" || Ascii.eqb c "?" || Ascii.eqb c "|"
               then None
          else
            let t :=
              if Ascii.eqb c "(" then TOpen
              else if Ascii.eqb c ")" then TClose
              else if Ascii.eqb c "+" then TPlus
              else if Ascii.eqb c "." then TAtom RAny
              else if Ascii.eqb c "^" then TAtom RBol
              else if Ascii.eqb c "$" then TAtom REol
              else TAtom (RChar c) in
            option_map (cons t) (lex LNormal s')
      | LEscape =>
          match escape_class c with
          | Some (CChar a) => option_map (cons (TAtom (RChar a))) (lex LNormal s')
          | Some k => option_map (cons (TAtom (RSet [k]))) (lex LNormal s')
          | None => None
          end
      | LSet acc =>
          if Ascii.eqb c "]" then
            match acc with
            | [] => None
            | _ => option_map (cons (TAtom (RSet (rev acc)))) (lex LNormal s')
            end
          else if Ascii.eqb c "\" then lex (LSetEscape acc) s'
          else if Ascii.eqb c "^" then
            match acc with
            | [] => None
            | _ => lex (LSet (CChar c :: acc)) s'
            end
          else if Ascii.eqb c "-" then
            match acc with
            | CChar lo :: acc' => lex (LSetDash acc' lo) s'
            | _ => lex (LSet (CChar c :: acc)) s'
            end
          else lex (LSet (CChar c :: acc)) s'
      | LSetEscape acc =>
          match escape_class c with
          | Some k => lex (LSet (k :: acc)) s'
          | None => None
          end
      | LSetDash acc lo =>
          if Ascii.eqb c "]" then
            option_map (cons (TAtom (RSet (rev (CChar "-" :: CChar lo :: acc)))))
                       (lex LNormal s')
          else if Ascii.eqb c "\" then None
          else lex (LSet (CRange lo c :: acc)) s'
      | LBrace n =>
          if Ascii.eqb c "}" then
            match n with
            | Some k => option_map (cons (TRep k)) (lex LNormal s')
            | None => None
            end
          else if is_digit c then
            lex (LBrace (Some (10 * match n with Some k => k | None => 0 end
                               + digit_val c))) s'
          else None
      end
  end.

Fixpoint seq_of (rs : list regex) : regex :=
  match rs with
  | [] => REmpty
  | [r] => r
  | r :: rs' => RSeq r (seq_of rs')
  end.

(** [cur] holds the items of the group being read, last one first;
    [stack] the enclosing groups with their numbers; [next] the number of
    the next group to open.  The result carries the number of groups. *)
Fixpoint build (ts : list token) (cur : list regex)
         (stack : list (nat * list regex)) (next : nat)
  : option (regex * nat) :=
  match ts with
  | [] =>
      match stack with
      | [] => Some (seq_of (rev cur), next - 1)
      | _ => None
      end
  | TAtom r :: ts' => build ts' (r :: cur) stack next
  | TOpen :: ts' => build ts' [] ((next, cur) :: stack) (S next)
  | TClose :: ts' =>
      match stack with
      | (i, parent) :: stack' =>
          build ts' (RGroup i (seq_of (rev cur)) :: parent) stack' next
      | [] => None
      end
  | TPlus :: ts' =>
      match cur with
      | r :: cur' => build ts' (RPlus r :: cur') stack next
      | [] => None
      end
  | TRep n :: ts' =>
      match cur with
      | r :: cur' => build ts' (RRep n r :: cur') stack next
      | [] => None
      end
  end.

Definition compile (pattern : string) : option (regex * nat) :=
  match lex LNormal pattern with
  | Some ts => build ts [] [] 1
  | None => None
  end.

(** *** Matching *)

(** The groups that took part so far, most recent first. *)
Definition caps : Type := list (nat * string).

Definition prefix (n : nat) (s : string) : string := substring 0 n s.

(** [$] matches at the end of the text and before a newline that ends it. *)
Definition at_end (s : string) : bool :=
  match s with
  | EmptyString => true
  | String c EmptyString => Ascii.eqb c newline
  | _ => false
  end.

(** What is left to match once a part of the pattern has matched, and a
    part of a pattern as a function of it. *)
Definition kont : Type := string -> caps -> option caps.
Definition matcher : Type := string -> caps -> kont -> option caps.

(** The further rounds of a greedy repetition: one more round of [body]
    is tried before the rest of the pattern is; a round has to take at
    least one character.  [fuel] bounds the number of rounds and is the
    length of the text at the start, which they cannot exceed. *)
Fixpoint more (body : matcher) (k : kont) (fuel : nat) (s : string) (c : caps)
  {struct fuel} : option caps :=
  match fuel with
  | 0 => k s c
  | S fuel' =>
      match body s c
                 (fun s' c' =>
                    if Nat.ltb (String.length s') (String.length s)
                    then more body k fuel' s' c' else None) with
      | Some res => Some res
      | None => k s c
      end
  end.

(** [n] rounds of [body], then the rest of the pattern. *)
Fixpoint times (body : matcher) (k : kont) (n : nat) (s : string) (c : caps)
  {struct n} : option caps :=
  match n with
  | 0 => k s c
  | S n' => body s c (fun s' c' => times body k n' s' c')
  end.

(** Backtracking matcher: [run r total s c k] matches [r] at the head of
    [s] and hands the rest to [k]; alternatives are tried in Python's
    order (a repetition takes as much as it can first).  [total] is the
    length of the whole text, by which [^] recognises its start. *)
Fixpoint run (r : regex) (total : nat) (s : string) (c : caps) (k : kont)
  {struct r} : option caps :=
  match r with
  | REmpty => k s c
  | RChar a =>
      match s with
      | String x s' => if Ascii.eqb x a then k s' c else None
      | EmptyString => None
      end
  | RAny =>
      match s with
      | String x s' => if Ascii.eqb x newline then None else k s' c
      | EmptyString => None
      end
  | RSet cs =>
      match s with
      | String x s' => if in_set cs x then k s' c else None
      | EmptyString => None
      end
  | RBol => if Nat.eqb (String.length s) total then k s c else None
  | REol => if at_end s then k s c else None
  | RSeq r1 r2 => run r1 total s c (fun s' c' => run r2 total s' c' k)
  | RPlus r1 =>
      run r1 total s c
          (fun s1 c1 => more (run r1 total) k (String.length s1) s1 c1)
  | RRep n r1 => times (run r1 total) k n s c
  | RGroup i r1 =>
      run r1 total s c
          (fun s' c' =>
             k s' ((i, prefix (String.length s - String.length s') s) :: c'))
  end.

Fixpoint lookup (i : nat) (c : caps) : option string :=
  match c with
  | [] => None
  | (j, v) :: c' => if Nat.eqb i j then Some v else lookup i c'
  end.

(** A match object, reduced to what the source asks of it:
    [m.groups()], the groups 1..n, [None] for one that took no part. *)
Record match_object : Type := mkMatch { groups : list (option string) }.

(** [m.group(i)] for [1 <= i <= len(m.groups())]. *)
Definition group (m : match_object) (i : nat) : option string :=
  nth (i - 1) (groups m) None.

(** [re.match(pattern, text)]: a match at the start of the text, or
    [None].  A pattern outside the handled syntax yields [None] as well;
    every pattern of the source is inside it (lemmas [*_compiles]). *)
Definition match_ (pattern text : string) : option match_object :=
  match compile pattern with
  | Some (r, n) =>
      match run r (String.length text) text [] (fun _ c => Some c) with
      | Some c => Some (mkMatch (map (fun i => lookup i c) (seq 1 n)))
      | None => None
      end
  | None => None
  end.

End re.

(** Every pattern text of the source, by the place it is used. *)
Definition interface_re : string := "Interface: (.+) ---".
Definition windows_host_re : string :=
  "  ([\w.]+)\s+(([0-9a-f]{2}-){5}[0-9a-f]{2})".
Definition linux_host_re : string :=
  "([\w.]+)\s+\w+\s+(([0-9a-f]{2}:){5}[0-9a-f]{2})".
Definition hop_re : string := "\s+\d+\s+([\w.]+)".

(* ------------------------------------------------------------------ *)
(** ** node.py *)

Record Node : Type := mkNode {
  ip : option string;
  mac : option string
}.

(** [Node(ip)] *)
Definition Node1 (ip : option string) : Node := mkNode ip None.

(** The values an attribute access can yield. *)
Inductive pyval : Type :=
| PStr (s : option string)
| PNode (n : Node).

(** Attribute lookup.  [__init__] sets [ip] and [mac] and nothing else, so
    any other name raises [AttributeError]; so does any attribute asked of
    a [str] or of [None]. *)
Definition getattr (v : pyval) (name : string) : outcome pyval :=
  match v with
  | PNode n =>
      if name =? "ip" then Return (PStr (ip n))
      else if name =? "mac" then Return (PStr (mac n))
      else Raise (AttributeError name)
  | PStr _ => Raise (AttributeError name)
  end.

Definition pyval_truthy (v : pyval) : bool :=
  match v with
  | PStr s => truthy s
  | PNode _ => true
  end.

Definition node_eqb (a b : Node) : bool :=
  pystr_eqb (ip a) (ip b) && pystr_eqb (mac a) (mac b).

(** [==] on attribute values; the code applies it to [str]/[None] only. *)
Definition pyval_eqb (a b : pyval) : bool :=
  match a, b with
  | PStr x, PStr y => pystr_eqb x y
  | PNode x, PNode y => node_eqb x y
  | _, _ => false
  end.

(** [Node.__eq__(self, other)].  The body reads [self.other], never
    [other]. *)
Definition Node__eq__ (self other : Node) : outcome bool :=
  (* if self.mac and self.other.mac: *)
  self_mac <- getattr (PNode self) "mac" ;;
  both <- (if pyval_truthy self_mac
           then o <- getattr (PNode self) "other" ;;
                other_mac <- getattr o "mac" ;;
                Return (pyval_truthy other_mac)
           else Return false) ;;
  if both then
    (* return self.ip == self.other.ip and self.mac == self.other.mac *)
    self_ip <- getattr (PNode self) "ip" ;;
    o <- getattr (PNode self) "other" ;;
    other_ip <- getattr o "ip" ;;
    if pyval_eqb self_ip other_ip then
      self_mac <- getattr (PNode self) "mac" ;;
      o <- getattr (PNode self) "other" ;;
      other_mac <- getattr o "mac" ;;
      Return (pyval_eqb self_mac other_mac)
    else Return false
  else
    (* return self.ip == self.other.ip *)
    self_ip <- getattr (PNode self) "ip" ;;
    o <- getattr (PNode self) "other" ;;
    other_ip <- getattr o "ip" ;;
    Return (pyval_eqb self_ip other_ip).

(** The rule of the specification, in its words: two nodes are equal iff
    their IPs match and, if both carry a MAC, the MACs match too. *)
Definition spec_equal (a b : Node) : bool :=
  pystr_eqb (ip a) (ip b)
  && (if truthy (mac a) && truthy (mac b)
      then pystr_eqb (mac a) (mac b) else true).

(* ------------------------------------------------------------------ *)
(** ** The loop of the Windows ARP extractors *)

(** The text of the exception for a centre IP that contradicts the one
    supplied. *)
Definition ip_mismatch (_local_ip ip : option string) : string :=
  let show v := match v with Some s => s | None => "None" end in
  "The IP found in the ARP file is " ++ show _local_ip
  ++ " but you supplied " ++ show ip ++ ". Aborting...".

(** The loop of [parse_windows_arp], which the two copies of the function
    (parsers.py, netgrapher.py) share but for the pattern of a host line.
    [_local_ip] is the local variable of that name: [None] while it is not
    bound, [Some v] once it holds the value [v]. *)
Fixpoint parse_windows_arp_loop (host_re : string) (ip : option string)
         (lines : list string) (_local_ip : option (option string))
         (nodes : list Node)
  : outcome (option (option string) * list Node) :=
  match lines with
  | [] => Return (_local_ip, nodes)
  | line :: rest =>
      let hosts :=
        match re.match_ host_re line with
        | Some m =>
            if Nat.leb 2 (List.length (re.groups m))
            then let _node_ip := re.group m 1 in
                 let _node_mac := re.group m 2 in
                 parse_windows_arp_loop host_re ip rest _local_ip
                                        (nodes ++ [mkNode _node_ip _node_mac])
            else parse_windows_arp_loop host_re ip rest _local_ip nodes
        | None => parse_windows_arp_loop host_re ip rest _local_ip nodes
        end in
      match re.match_ interface_re line with
      | Some m =>
          if Nat.leb 1 (List.length (re.groups m))
          then let _local_ip := re.group m 1 in
               match ip with
               | Some _ =>
                   if negb (pystr_eqb _local_ip ip)
                   then Raise (MyException (ip_mismatch _local_ip ip))
                   else parse_windows_arp_loop host_re ip rest
                                               (Some _local_ip) nodes
               | None => parse_windows_arp_loop host_re ip rest
                                                (Some _local_ip) nodes
               end
          else hosts
      | None => hosts
      end
  end.

(** Reading a local variable. *)
Definition read_local (name : string) (v : option (option string))
  : outcome (option string) :=
  match v with
  | Some x => Return x
  | None => Raise (UnboundLocalError name)
  end.

(* ------------------------------------------------------------------ *)
(** ** parsers.py *)

Module parsers.

Definition guess_data : list ((string * string) * string) :=
  [ (("arp", "windows"), "^Interface:\s+");
    (("arp", "linux"),
     "^Address\s+HWtype\s+HWaddress\s+Flags\s+Mask\s+Iface$");
    (("arp", "openbsd"),
     "^Host\s+Ethernet\sAddress\s+Netif\sExpire\sFlags$");
    (("traceroute", "linux"),
     "^traceroute to .+ \([\d.]+\), \d+ hops max, \d+ byte packets$");
    (("route", "linux"), "^Kernel IP routing table$");
    (("route", "linux"),
     "^Destination\s+Gateway\s+Genmask\s+Flags\sMetric\sRef\s+Use\sIface$");
    (("route", "windows"),
     "===========================================================================")
  ].

(** [set(a[0] for a, b in guess_data)] and [set(a[1] for a, b in
    guess_data)]; a set is a list without repetition. *)
Definition SUPPORTED_DUMPFILES : list string :=
  nodup string_dec (map (fun e => fst (fst e)) guess_data).
Definition SUPPORTED_OS : list string :=
  nodup string_dec (map (fun e => snd (fst e)) guess_data).

(** The inner loop of the classifier: [for type_os, regexp in table],
    leaving at the first pattern that matches the line. *)
Fixpoint try_signatures (table : list ((string * string) * string))
         (line : string) : option (string * string) :=
  match table with
  | [] => None
  | (type_os, regexp) :: table' =>
      match re.match_ regexp line with
      | Some _ => Some type_os
      | None => try_signatures table' line
      end
  end.

(** The outer loop: [for line in f.readlines()]. *)
Fixpoint guess_lines (lines : list string)
  : option string * option string :=
  match lines with
  | [] => (None, None)
  | line :: rest =>
      match try_signatures guess_data line with
      | Some (file_type, os) => (Some file_type, Some os)
      | None => guess_lines rest
      end
  end.

Definition guess_dumpfile_type_and_os (fs : filesystem) (dumpfile : string)
  : outcome (option string * option string) :=
  lines <- open_readlines fs dumpfile ;;
  Return (guess_lines lines).

Definition no_centre_tr : string :=
  "Linux ARP does not contain the IP of the centre node; "
  ++ "please supply it manually with --ip" ++ nl.

Definition no_centre_arp : string :=
  "Linux ARP does not contain the IP of the centre node; "
  ++ "please supply it manually" ++ nl.

(** The loop of [parse_linux_tr]; [hops] is the list built so far. *)
Fixpoint parse_linux_tr_loop (lines : list string) (hops : list Node)
  : list Node :=
  match lines with
  | [] => hops
  | line :: rest =>
      match re.match_ hop_re line with
      | Some m =>
          if Nat.leb 1 (List.length (re.groups m))
          then let _hop_ip := re.group m 1 in
               parse_linux_tr_loop rest (hops ++ [Node1 _hop_ip])
          else parse_linux_tr_loop rest hops
      | None => parse_linux_tr_loop rest hops
      end
  end.

Definition parse_linux_tr (fs : filesystem) (dumpfile : string)
           (ip : option string) : outcome (list Node) :=
  let hops := [] in
  match ip with
  | None => Raise (MyException no_centre_tr)
  | Some _ =>
      let hops := hops ++ [Node1 ip] in
      lines <- open_readlines fs dumpfile ;;
      Return (parse_linux_tr_loop lines hops)
  end.

Fixpoint parse_linux_arp_loop (lines : list string) (nodes : list Node)
  : list Node :=
  match lines with
  | [] => nodes
  | line :: rest =>
      match re.match_ linux_host_re line with
      | Some m =>
          if Nat.leb 2 (List.length (re.groups m))
          then let _node_ip := re.group m 1 in
               let _node_mac := re.group m 2 in
               parse_linux_arp_loop rest (nodes ++ [mkNode _node_ip _node_mac])
          else parse_linux_arp_loop rest nodes
      | None => parse_linux_arp_loop rest nodes
      end
  end.

Definition parse_linux_arp (fs : filesystem) (dumpfile : string)
           (ip : option string) : outcome (Node * list Node) :=
  lines <- open_readlines fs dumpfile ;;
  let nodes := parse_linux_arp_loop lines [] in
  match ip with
  | None => Raise (MyException no_centre_arp)
  | Some _ => Return (Node1 ip, nodes)
  end.

(** [parse_windows_arp] of parsers.py: returns [Node(_local_ip), nodes]. *)
Definition parse_windows_arp (fs : filesystem) (dumpfile : string)
           (ip : option string) : outcome (Node * list Node) :=
  let nodes := [] in
  lines <- open_readlines fs dumpfile ;;
  st <- parse_windows_arp_loop windows_host_re ip lines None nodes ;;
  let '(_local_ip, nodes) := st in
  centre_ip <- read_local "_local_ip" _local_ip ;;
  Return (Node1 centre_ip, nodes).

End parsers.

(* ------------------------------------------------------------------ *)
(** ** netgrapher.py *)

(** The graph that growth is given: a set of nodes and a set of edges. *)
Record Graph : Type := mkGraph {
  graph_nodes : list Node;
  graph_edges : list (Node * Node)
}.

Definition empty_graph : Graph := mkGraph [] [].

Module netgrapher.

Definition SUPPORTED_DUMPFILES : list string := ["arp"; "route"; "traceroute"].
Definition SUPPORTED_OS : list string := ["windows"].

(** [x in l] for a list of [str]. *)
Definition py_in (x : string) (l : list string) : bool :=
  existsb (String.eqb x) l.

(** The host pattern of this copy ends in one hexadecimal digit. *)
Definition windows_host_re : string :=
  "  ([\w.]+)\s+(([0-9a-f]{2}-){5}[0-9a-f])".

(** [parse_windows_arp] of netgrapher.py: returns the one-entry dict
    [{Node(_local_ip): nodes}]. *)
Definition parse_windows_arp (fs : filesystem) (dumpfile : string)
           (ip : option string) : outcome (list (Node * list Node)) :=
  let nodes := [] in
  lines <- open_readlines fs dumpfile ;;
  st <- parse_windows_arp_loop windows_host_re ip lines None nodes ;;
  let '(_local_ip, nodes) := st in
  centre_ip <- read_local "_local_ip" _local_ip ;;
  Return [(Node1 centre_ip, nodes)].

(** Code that is handed the graph runs in a state monad over it: the
    graph after the call is part of the result, also when the call
    raises. *)
Definition Py (A : Type) : Type := Graph -> outcome A * Graph.

Definition ret {A : Type} (a : A) : Py A := fun g => (Return a, g).
Definition raise {A : Type} (e : exn) : Py A := fun g => (Raise e, g).
Definition lift {A : Type} (c : outcome A) : Py A := fun g => (c, g).
Definition pbind {A B : Type} (c : Py A) (k : A -> Py B) : Py B :=
  fun g =>
    match c g with
    | (Return a, g') => k a g'
    | (Raise e, g') => (Raise e, g')
    end.

Definition augment_from_arp (fs : filesystem) (dumpfile dumpfile_os : string)
           (ip : option string) : Py unit :=
  if dumpfile_os =? "windows" then
    pbind (lift (parse_windows_arp fs dumpfile ip))
          (fun _local_net =>
             (* logger.debug(...) of the keys and values of _local_net *)
             ret tt)
  else raise (NotImplementedError "Sorry dude").

Definition augment_from_route (fs : filesystem) (dumpfile dumpfile_os : string)
           (ip : option string) : Py unit :=
  raise (NotImplementedError "Sorry, haven't written this yet").

Definition augment_from_tr (fs : filesystem) (dumpfile dumpfile_os : string)
           (ip : option string) : Py unit :=
  raise (NotImplementedError "Sorry, haven't written this yet").

Definition guess_dumpfile_type (f : string) : string := "arp".
Definition guess_dumpfile_os (f : string) : string := "windows".

(** The (dump-type, OS) pair that growth works with: the one given, or
    the guess where none is. *)
Definition resolve_type (dumpfile : string) (dumpfile_type : option string)
  : string :=
  match dumpfile_type with
  | None => guess_dumpfile_type dumpfile
  | Some t => t
  end.

Definition resolve_os (dumpfile : string) (dumpfile_os : option string)
  : string :=
  match dumpfile_os with
  | None => guess_dumpfile_os dumpfile
  | Some o => o
  end.

(** [grow_graph(current_graph, dumpfile, dumpfile_os, dumpfile_type, ip)];
    [current_graph] is the state of the monad.  The function ends without
    a [return]: its value is [None], here [tt]. *)
Definition grow_graph (fs : filesystem) (dumpfile : string)
           (dumpfile_os dumpfile_type ip : option string) : Py unit :=
  let dumpfile_type := resolve_type dumpfile dumpfile_type in
  let dumpfile_os := resolve_os dumpfile dumpfile_os in
  if negb (py_in dumpfile_type SUPPORTED_DUMPFILES)
  then raise (MyException "Invalid dumpfile")
  else if negb (py_in dumpfile_os SUPPORTED_OS)
  then raise (MyException "Invalid OS")
  else if dumpfile_type =? "arp"
  then augment_from_arp fs dumpfile dumpfile_os ip
  else if dumpfile_type =? "route"
  then augment_from_route fs dumpfile dumpfile_os ip
  else if dumpfile_type =? "traceroute"
  then augment_from_tr fs dumpfile dumpfile_os ip
  else raise (NotImplementedError "This dumpfile is not supported.").

(** The pairs that the dispatch of [grow_graph] and [augment_from_arp]
    hands to an extractor: [parse_windows_arp] for (arp, windows), and no
    other. *)
Definition has_extractor (dumpfile_type dumpfile_os : string) : bool :=
  (dumpfile_type =? "arp") && (dumpfile_os =? "windows").

End netgrapher.

(* ------------------------------------------------------------------ *)
(** ** Predicates and inputs of the properties *)

(** The pattern is inside the syntax that [re.compile] handles. *)
Definition compiles (pattern : string) : bool :=
  match re.compile pattern with
  | Some _ => true
  | None => false
  end.

Fixpoint all_chars (p : ascii -> bool) (s : string) : bool :=
  match s with
  | EmptyString => true
  | String c s' => p c && all_chars p s'
  end.

(** A non-empty run of characters of the set [cs]. *)
Definition run_of (cs : list re.cset) (s : string) : Prop :=
  s <> EmptyString /\ all_chars (re.in_set cs) s = true.

(** The text [rest] does not go on with a character of [cs]. *)
Definition stops (cs : list re.cset) (rest : string) : bool :=
  match rest with
  | EmptyString => true
  | String ch _ => negb (re.in_set cs ch)
  end.

Definition space_set : list re.cset := [re.CSpace].
Definition digit_set : list re.cset := [re.CDigit].
Definition token_set : list re.cset := [re.CWord; re.CChar "."].

(** A line matches no pattern of the table. *)
Definition no_signature (table : list ((string * string) * string))
           (line : string) : Prop :=
  forall d pattern, In (d, pattern) table -> re.match_ pattern line = None.

(** The hop that a line contributes: the first group of [hop_re], for a
    line that matches. *)
Definition hop_of_line (line : string) : list Node :=
  match re.match_ hop_re line with
  | Some m => [Node1 (re.group m 1)]
  | None => []
  end.

(** A line with an interface marker whose IP is not the one supplied. *)
Definition contradicts (hint line : string) : Prop :=
  exists m, re.match_ interface_re line = Some m /\
            re.group m 1 <> Some hint.

(** A file system that holds one file. *)
Definition single_file (path text : string) : filesystem :=
  fun p => if p =? path then Some text else None.

(** The Windows ARP dump, the Windows ARP dump without its interface line,
    the Linux routing table and the traceroute dump that the scenarios run
    on. *)
Definition arp_dump : string :=
  "Interface: 10.137.2.16 --- 0x11" ++ nl
  ++ "  10.137.2.1   fe-ff-ff-ff-ff-ff   dynamic" ++ nl.

Definition hosts_only_dump : string :=
  "  10.137.2.1   fe-ff-ff-ff-ff-ff   dynamic" ++ nl
  ++ "  10.137.2.7   00-16-3e-5e-6c-06   dynamic" ++ nl.

Definition route_dump : string :=
  "Kernel IP routing table" ++ nl
  ++ "Destination     Gateway         Genmask         Flags Metric Ref    Use Iface"
  ++ nl
  ++ "0.0.0.0         10.137.2.1      0.0.0.0         UG    0      0        0 eth0"
  ++ nl.

Definition tr_dump : string :=
  "  1  10.137.4.1  0.550 ms  0.463 ms  0.383 ms" ++ nl.

(* ------------------------------------------------------------------ *)
(** ** What a pattern captures, and how much it takes *)

(** The group [i] has taken part. *)
Definition has_group (i : nat) (c : re.caps) : Prop := re.lookup i c <> None.

(** Every match of [r] passes through the group [i]. *)
Fixpoint sets (i : nat) (r : re.regex) : bool :=
  match r with
  | re.RGroup j r1 => Nat.eqb i j || sets i r1
  | re.RSeq r1 r2 => sets i r1 || sets i r2
  | re.RPlus r1 => sets i r1
  | re.RRep n r1 => negb (Nat.eqb n 0) && sets i r1
  | _ => false
  end.

(** The number of characters that every match of [r] takes, for a pattern
    without repetition of open length. *)
Fixpoint width (r : re.regex) : option nat :=
  match r with
  | re.REmpty | re.RBol | re.REol => Some 0
  | re.RChar _ | re.RAny | re.RSet _ => Some 1
  | re.RSeq r1 r2 =>
      match width r1, width r2 with
      | Some a, Some b => Some (a + b)
      | _, _ => None
      end
  | re.RPlus _ => None
  | re.RRep n r1 => option_map (Nat.mul n) (width r1)
  | re.RGroup _ r1 => width r1
  end.

(** The group that ends the pattern, with its number. *)
Fixpoint last_group (r : re.regex) : option (nat * re.regex) :=
  match r with
  | re.RSeq _ r2 => last_group r2
  | re.RGroup i g => Some (i, g)
  | _ => None
  end.

(** A part of a pattern hands on to the rest of the pattern whenever it
    succeeds, keeps [I] of the captures and leaves no more text than it
    was given. *)
Definition through (I : re.caps -> Prop) (body : re.matcher) : Prop :=
  forall s c k res,
    I c -> body s c k = Some res ->
    exists s' c', I c' /\ k s' c' = Some res /\
                  String.length s' <= String.length s.

(* ------------------------------------------------------------------ *)
(** ** The extractors as functions of the lines *)

(** The centre IP that a line announces, for a line with an interface
    marker. *)
Definition interface_ip (line : string) : option (option string) :=
  match re.match_ interface_re line with
  | Some m => Some (re.group m 1)
  | None => None
  end.

(** The node of a host line, by the pattern [host_re]. *)
Definition host_nodes (host_re line : string) : list Node :=
  match re.match_ host_re line with
  | Some m =>
      if Nat.leb 2 (List.length (re.groups m))
      then [mkNode (re.group m 1) (re.group m 2)]
      else []
  | None => []
  end.

(** The nodes of all host lines; a line with an interface marker is no
    host line. *)
Definition pooled_hosts (host_re : string) (lines : list string)
  : list Node :=
  flat_map (fun line => match interface_ip line with
                        | Some _ => []
                        | None => host_nodes host_re line
                        end) lines.

(** The value of [_local_ip] after the lines: that of the last line with
    an interface marker. *)
Definition centre_after (lines : list string) (start : option (option string))
  : option (option string) :=
  fold_left (fun acc line => match interface_ip line with
                             | Some v => Some v
                             | None => acc
                             end) lines start.

(** The IP of the first interface marker that is not the hint. *)
Fixpoint first_contradiction (ip : option string) (lines : list string)
  : option (option string) :=
  match lines with
  | [] => None
  | line :: rest =>
      match interface_ip line, ip with
      | Some v, Some _ =>
          if pystr_eqb v ip then first_contradiction ip rest else Some v
      | _, _ => first_contradiction ip rest
      end
  end.

(** What the body of [parse_windows_arp] after the [open] answers. *)
Definition windows_arp_answer (host_re : string) (ip : option string)
           (lines : list string) : outcome (option string * list Node) :=
  match first_contradiction ip lines with
  | Some found => Raise (MyException (ip_mismatch found ip))
  | None =>
      match centre_after lines None with
      | Some centre => Return (centre, pooled_hosts host_re lines)
      | None => Raise (UnboundLocalError "_local_ip")
      end
  end.

(** A Windows ARP dump of a host with two interfaces. *)
Definition two_interfaces_dump : string :=
  "Interface: 10.137.2.16 --- 0x11" ++ nl
  ++ "  10.137.2.1   fe-ff-ff-ff-ff-ff   dynamic" ++ nl
  ++ "Interface: 192.168.0.5 --- 0x12" ++ nl
  ++ "  192.168.0.1   00-16-3e-5e-6c-06   dynamic" ++ nl.

(** A Linux ARP dump: the header and one host. *)
Definition linux_arp_dump : string :=
  "Address                  HWtype  HWaddress           Flags Mask            Iface"
  ++ nl
  ++ "10.137.1.8               ether   00:16:3e:5e:6c:06   C                     vif2.0"
  ++ nl.

(* ------------------------------------------------------------------ *)
(** ** node.py: [Node.__repr__] *)

(** ["{}".format(v)] for a [str] or [None]. *)
Definition format_pystr (v : option string) : string :=
  match v with
  | Some s => s
  | None => "None"
  end.

Definition Node__repr__ (self : Node) : string :=
  let _ret := ("Node IP: " ++ format_pystr (ip self))%string in
  if truthy (mac self)
  then (_ret ++ " [mac: " ++ format_pystr (mac self) ++ "]")%string
  else _ret.

(* ------------------------------------------------------------------ *)
(** ** __main__.py: [load_graph] and [save_graph] *)

Module main.

(** The exceptions of the libraries that the two functions call, by the
    [except] clauses that tell them apart. *)
Inductive lib_exn : Type :=
| ParseError (msg : string)   (* of xml.etree, raised by nx.read_gexf *)
| DotError (msg : string)     (* pygraphviz.agraph.DotError *)
| ImportError (msg : string)
| OtherError (msg : string).  (* any other exception *)

Inductive lib_result (A : Type) : Type :=
| LibOk (a : A)
| LibRaise (e : lib_exn).

Arguments LibOk {A} a.
Arguments LibRaise {A} e.

(** What a call raises: an exception of the program or one of a library. *)
Inductive failure : Type :=
| Domain (e : exn)
| Library (e : lib_exn).

Inductive answer (A : Type) : Type :=
| Done (a : A)
| Failed (e : failure).

Arguments Done {A} a.
Arguments Failed {A} e.

(** networkx, json and pygraphviz, as far as the two functions use them.
    A reader is given the text of the file.  A writer is given the graph
    and what the file holds so far ([None] when there is no file); it
    answers what the file holds afterwards and the exception it raises, if
    any.  [pygraphviz] tells whether [import pygraphviz] succeeds. *)
Record library : Type := mkLibrary {
  pygraphviz : bool;
  read_gexf : string -> lib_result Graph;
  read_dot : string -> lib_result Graph;
  read_json : string -> lib_result Graph;
  read_graphml : string -> lib_result Graph;
  write_gexf : Graph -> option string -> option string * option lib_exn;
  write_dot : Graph -> option string -> option string * option lib_exn;
  write_json : Graph -> option string -> option string * option lib_exn;
  write_graphml : Graph -> option string -> option string * option lib_exn
}.

(** The file system with the file at [path] set to [content]. *)
Definition fs_write (fs : filesystem) (path : string)
           (content : option string) : filesystem :=
  fun p => if p =? path then content else fs p.

(** [nx.Graph()] *)
Definition new_graph : Graph := empty_graph.

Definition load_graph (lib : library) (fs : filesystem)
           (savefile : option string) (file_format : string)
  : answer Graph :=
  match savefile with
  | None => Done new_graph
  | Some path =>
      match fs path with
      | Some content =>
          if file_format =? "GEXF" then
            match read_gexf lib content with
            | LibOk g => Done g
            | LibRaise (ParseError e) =>
                Failed (Domain (MyException
                  ("Cannot read file " ++ path ++ " using format "
                   ++ file_format ++ ": " ++ e)%string))
            | LibRaise e => Failed (Library e)
            end
          else if file_format =? "DOT" then
            if pygraphviz lib then
              match read_dot lib content with
              | LibOk g => Done g
              | LibRaise (ImportError _) =>
                  Failed (Domain (MyException "Cannot find pygraphviz"))
              | LibRaise (DotError e) => Failed (Domain (MyException e))
              | LibRaise e => Failed (Library e)
              end
            else Failed (Library (ImportError "No module named pygraphviz"))
          else if file_format =? "JSON" then
            match read_json lib content with
            | LibOk g => Done g
            | LibRaise e => Failed (Library e)
            end
          else if file_format =? "GRAPHML" then
            match read_graphml lib content with
            | LibOk g => Done g
            | LibRaise e => Failed (Library e)
            end
          else Failed (Domain (MyException
                 ("Unknown file format " ++ file_format)%string))
      | None => Done new_graph
      end
  end.

(** ["{}.bak".format(savefile)] *)
Definition backup_of (savefile : string) : string := savefile ++ ".bak".

(** The writer that [save_graph] calls for a format, if it calls one. *)
Definition writer_of (lib : library) (file_format : string)
  : option (Graph -> option string -> option string * option lib_exn) :=
  if file_format =? "GEXF" then Some (write_gexf lib)
  else if file_format =? "DOT" then Some (write_dot lib)
  else if file_format =? "JSON" then Some (write_json lib)
  else if file_format =? "GRAPHML" then Some (write_graphml lib)
  else None.

(** [save_graph(graph, savefile, file_format)], on the file system: the
    answer and the file system afterwards. *)
Definition save_graph (lib : library) (graph : Graph)
           (savefile file_format : string) (fs : filesystem)
  : answer unit * filesystem :=
  let fs1 :=
    match fs savefile with
    | Some old => fs_write fs (backup_of savefile) (Some old)
    | None => fs
    end in
  match writer_of lib file_format with
  | Some write =>
      let '(after, raised) := write graph (fs1 savefile) in
      let fs2 := fs_write fs1 savefile after in
      match raised with
      | Some e => (Failed (Library e), fs2)
      | None => (Done tt, fs2)
      end
  | None =>
      (* logger.error("Unknown file format requested") *)
      (Done tt, fs1)
  end.

(** The reader that [load_graph] calls for a format. *)
Definition reader_of (lib : library) (file_format : string)
  : option (string -> lib_result Graph) :=
  if file_format =? "GEXF" then Some (read_gexf lib)
  else if file_format =? "DOT" then Some (read_dot lib)
  else if file_format =? "JSON" then Some (read_json lib)
  else if file_format =? "GRAPHML" then Some (read_graphml lib)
  else None.

(** A library for the examples: it writes a fixed text for any graph and
    reads any text as the empty graph. *)
Definition toy_library : library :=
  let write := fun (_ : Graph) (_ : option string) =>
                 (Some "graph", @None lib_exn) in
  let read := fun (_ : string) => LibOk empty_graph in
  mkLibrary true read read read read write write write write.

End main.

(* ================================================================== *)
(** * Properties *)

(* ------------------------------------------------------------------ *)
(** ** The patterns of the source *)

Lemma guess_data_compiles :
  forallb (fun e => compiles (snd e)) parsers.guess_data = true.
Proof. vm_compute. reflexivity. Qed.

Lemma interface_re_compiles :
  exists r, re.compile interface_re = Some (r, 1).
Proof. eexists. vm_compute. reflexivity. Qed.

Lemma windows_host_re_compiles :
  exists r, re.compile windows_host_re = Some (r, 3).
Proof. eexists. vm_compute. reflexivity. Qed.

Lemma netgrapher_host_re_compiles :
  exists r, re.compile netgrapher.windows_host_re = Some (r, 3).
Proof. eexists. vm_compute. reflexivity. Qed.

Lemma linux_host_re_compiles :
  exists r, re.compile linux_host_re = Some (r, 3).
Proof. eexists. vm_compute. reflexivity. Qed.

Lemma hop_re_compiles :
  exists r, re.compile hop_re = Some (r, 1).
Proof. eexists. vm_compute. reflexivity. Qed.

(** [len(m.groups())] is the number of groups of the pattern. *)
Lemma match_groups_length pattern r n text m :
  re.compile pattern = Some (r, n) ->
  re.match_ pattern text = Some m ->
  List.length (re.groups m) = n.
Proof.
  intros Hc Hm. unfold re.match_ in Hm. rewrite Hc in Hm.
  destruct (re.run r (String.length text) text [] (fun _ c => Some c));
    [|discriminate].
  injection Hm as <-. simpl. now rewrite length_map, length_seq.
Qed.

Lemma interface_match_groups text m :
  re.match_ interface_re text = Some m ->
  Nat.leb 1 (List.length (re.groups m)) = true.
Proof.
  intros Hm. destruct interface_re_compiles as [r Hr].
  now rewrite (@match_groups_length _ _ _ _ _ Hr Hm).
Qed.

Example interface_line_centre :
  re.match_ interface_re "Interface: 10.137.2.16 --- 0x11"
  = Some (re.mkMatch [Some "10.137.2.16"]).
Proof. vm_compute. reflexivity. Qed.

Example windows_host_line :
  re.match_ windows_host_re "  10.137.2.1   fe-ff-ff-ff-ff-ff   dynamic"
  = Some (re.mkMatch [Some "10.137.2.1"; Some "fe-ff-ff-ff-ff-ff"; Some "ff-"]).
Proof. vm_compute. reflexivity. Qed.

Example netgrapher_host_line :
  re.match_ netgrapher.windows_host_re
            "  10.137.2.1   fe-ff-ff-ff-ff-ff   dynamic"
  = Some (re.mkMatch [Some "10.137.2.1"; Some "fe-ff-ff-ff-ff-f"; Some "ff-"]).
Proof. vm_compute. reflexivity. Qed.

Example hop_line_first_token :
  re.match_ hop_re "  1  10.137.4.1  0.550 ms  0.463 ms  0.383 ms"
  = Some (re.mkMatch [Some "10.137.4.1"]).
Proof. vm_compute. reflexivity. Qed.

Example readlines_keeps_terminators :
  readlines ("ab" ++ nl ++ nl ++ "c")%string = [("ab" ++ nl)%string; nl; "c"].
Proof. reflexivity. Qed.

(* ------------------------------------------------------------------ *)
(** ** Greedy repetition of a character set *)

Lemma length_append (a b : string) :
  String.length (a ++ b) = String.length a + String.length b.
Proof. induction a; simpl; congruence. Qed.

Lemma prefix_append (a b : string) :
  re.prefix (String.length (a ++ b) - String.length b) (a ++ b) = a.
Proof.
  rewrite length_append, Nat.add_sub. unfold re.prefix.
  induction a as [|ch a IH]; simpl.
  - destruct b; reflexivity.
  - now rewrite IH.
Qed.

Section Greedy.

Variable cs : list re.cset.
Variable total : nat.
Variable k : re.kont.

Lemma run_set_cons (x : ascii) (s : string) (c : re.caps) (k' : re.kont) :
  re.run (re.RSet cs) total (String x s) c k'
  = if re.in_set cs x then k' s c else None.
Proof. reflexivity. Qed.

(** Further rounds over a run of [cs] that stops at [rest]: the whole run
    is taken first, and when the rest of the pattern accepts there, that
    is the answer. *)
Lemma more_set (a : string) :
  forall fuel rest c res,
    String.length (a ++ rest) <= fuel ->
    all_chars (re.in_set cs) a = true ->
    stops cs rest = true ->
    k rest c = Some res ->
    re.more (re.run (re.RSet cs) total) k fuel (a ++ rest) c = Some res.
Proof.
  induction a as [|ch a IH]; intros fuel rest c res Hfuel Hall Hstop Hk.
  - cbn [append]. destruct fuel as [|fuel]; cbn [re.more]; [assumption|].
    destruct rest as [|x rest]; [assumption|].
    rewrite run_set_cons.
    cbn [stops] in Hstop. apply negb_true_iff in Hstop. now rewrite Hstop.
  - cbn [all_chars] in Hall. apply andb_true_iff in Hall as [Hch Hall].
    cbn [append String.length] in Hfuel.
    destruct fuel as [|fuel]; [lia|].
    cbn [append re.more String.length]. rewrite run_set_cons, Hch.
    unfold Nat.ltb. cbn [Nat.leb]. rewrite Nat.leb_refl.
    rewrite (IH fuel rest c res); auto. lia.
Qed.

Lemma run_plus_set (a rest : string) (c : re.caps) (res : re.caps) :
  run_of cs a ->
  stops cs rest = true ->
  k rest c = Some res ->
  re.run (re.RPlus (re.RSet cs)) total (a ++ rest) c k = Some res.
Proof.
  intros [Hne Hall] Hstop Hk. destruct a as [|ch a]; [congruence|].
  cbn [all_chars] in Hall. apply andb_true_iff in Hall as [Hch Hall].
  cbn [append re.run]. rewrite Hch.
  apply more_set; auto.
Qed.

End Greedy.

(** A text that starts with a run of [cs'] stops every set [cs] that
    shares no character with [cs']. *)
Lemma stops_run_of (cs cs' : list re.cset) (a rest : string) :
  (forall ch, re.in_set cs' ch = true -> re.in_set cs ch = false) ->
  run_of cs' a ->
  stops cs (a ++ rest) = true.
Proof.
  intros Hdisj [Hne Hall]. destruct a as [|ch a]; [congruence|].
  simpl in *. apply andb_true_iff in Hall as [Hch _].
  now rewrite (Hdisj ch Hch).
Qed.

Ltac by_ascii ch :=
  destruct ch as [[] [] [] [] [] [] [] []]; vm_compute; congruence.

Lemma digit_not_space ch :
  re.in_set digit_set ch = true -> re.in_set space_set ch = false.
Proof. by_ascii ch. Qed.

Lemma space_not_digit ch :
  re.in_set space_set ch = true -> re.in_set digit_set ch = false.
Proof. by_ascii ch. Qed.

Lemma token_not_space ch :
  re.in_set token_set ch = true -> re.in_set space_set ch = false.
Proof. by_ascii ch. Qed.

Lemma run_seq r1 r2 total s c k :
  re.run (re.RSeq r1 r2) total s c k
  = re.run r1 total s c (fun s' c' => re.run r2 total s' c' k).
Proof. reflexivity. Qed.

Lemma run_group i r total s c k :
  re.run (re.RGroup i r) total s c k
  = re.run r total s c
           (fun s' c' =>
              k s' ((i, re.prefix (String.length s - String.length s') s)
                      :: c')).
Proof. reflexivity. Qed.

Lemma hop_re_compiled :
  re.compile hop_re
  = Some (re.RSeq (re.RPlus (re.RSet space_set))
            (re.RSeq (re.RPlus (re.RSet digit_set))
               (re.RSeq (re.RPlus (re.RSet space_set))
                  (re.RGroup 1 (re.RPlus (re.RSet token_set))))), 1).
Proof. reflexivity. Qed.

(** A hop line: blanks, the hop number, blanks, the address token, and
    then nothing or something that is not part of a token (the blank before
    the timing columns).  [hop_re] matches it and its one group is the
    address token, whatever follows. *)
Lemma hop_re_first_token (sp1 num sp2 tok rest : string) :
  run_of space_set sp1 ->
  run_of digit_set num ->
  run_of space_set sp2 ->
  run_of token_set tok ->
  stops token_set rest = true ->
  re.match_ hop_re (sp1 ++ num ++ sp2 ++ tok ++ rest)
  = Some (re.mkMatch [Some tok]).
Proof.
  intros H1 Hn H2 Ht Hrest. unfold re.match_. rewrite hop_re_compiled.
  set (accept := fun (_ : string) (c : re.caps) => Some c).
  assert (Htok : re.run (re.RGroup 1 (re.RPlus (re.RSet token_set)))
                        (String.length (sp1 ++ num ++ sp2 ++ tok ++ rest))
                        (tok ++ rest) [] accept
                 = Some [(1, tok)]).
  { rewrite run_group.
    rewrite (run_plus_set _ _ _ tok rest [] [(1, tok)] Ht Hrest);
      [reflexivity|].
    unfold accept. now rewrite prefix_append. }
  rewrite run_seq.
  rewrite (run_plus_set _ _ _ sp1 (num ++ sp2 ++ tok ++ rest) [] [(1, tok)]
             H1 (stops_run_of _ _ _ _ digit_not_space Hn));
    [reflexivity|].
  rewrite run_seq.
  rewrite (run_plus_set _ _ _ num (sp2 ++ tok ++ rest) [] [(1, tok)]
             Hn (stops_run_of _ _ _ _ space_not_digit H2));
    [reflexivity|].
  rewrite run_seq.
  rewrite (run_plus_set _ _ _ sp2 (tok ++ rest) [] [(1, tok)]
             H2 (stops_run_of _ _ _ _ token_not_space Ht));
    [reflexivity|].
  exact Htok.
Qed.

(* ------------------------------------------------------------------ *)
(** ** Node identity (node.py) *)

(** The rule of the specification is symmetric. *)
Lemma pystr_eqb_sym a b : pystr_eqb a b = pystr_eqb b a.
Proof.
  destruct (pystr_eqb_spec a b) as [->|Hn].
  - symmetry. destruct (pystr_eqb_spec b b); congruence.
  - destruct (pystr_eqb_spec b a); congruence.
Qed.

Lemma spec_equal_sym a b : spec_equal a b = spec_equal b a.
Proof.
  unfold spec_equal.
  rewrite (pystr_eqb_sym (ip a) (ip b)), (pystr_eqb_sym (mac a) (mac b)).
  now rewrite (andb_comm (truthy (mac a))).
Qed.

(** [Node.__eq__] reads the attribute [other] of [self], which no [Node]
    has: whatever the two nodes, the comparison raises. *)
Lemma Node__eq__raises self other :
  Node__eq__ self other = Raise (AttributeError "other").
Proof.
  unfold Node__eq__. simpl.
  destruct (truthy (mac self)); reflexivity.
Qed.

(** C1, at the failing input.  For two nodes of the same IP and no MAC the
    rule of the specification answers that they are equal, in either order;
    [Node.__eq__] returns no answer in either order: it raises
    [AttributeError] for the attribute [other]. *)
Theorem Node__eq__same_ip_raises :
  let a := Node1 (Some "10.0.0.1") in
  let b := Node1 (Some "10.0.0.1") in
  spec_equal a b = true /\ spec_equal b a = true /\
  Node__eq__ a b = Raise (AttributeError "other") /\
  Node__eq__ b a = Raise (AttributeError "other") /\
  (forall v, Node__eq__ a b <> Return v).
Proof.
  cbv zeta. repeat split; try reflexivity.
  intros v. rewrite Node__eq__raises. discriminate.
Qed.

(* ------------------------------------------------------------------ *)
(** ** The dump classifier (parsers.py) *)

Section Classifier.

Import parsers.

Lemma try_signatures_None table line :
  try_signatures table line = None <-> no_signature table line.
Proof.
  unfold no_signature. induction table as [|[d p] table IH]; simpl.
  - split; [intros _ ? ? []|reflexivity].
  - destruct (re.match_ p line) eqn:E.
    + split; [discriminate|]. intros H.
      specialize (H d p (or_introl eq_refl)). congruence.
    + rewrite IH. split.
      * intros H d' p' [Heq|Hin]; [congruence|eauto].
      * intros H d' p' Hin. eauto.
Qed.

(** When the inner loop answers, the answer is the descriptor of the
    first pattern of the table that matches the line. *)
Lemma try_signatures_Some table line d :
  try_signatures table line = Some d ->
  exists earlier pattern later,
    table = earlier ++ (d, pattern) :: later /\
    no_signature earlier line /\
    re.match_ pattern line <> None.
Proof.
  induction table as [|[d' p] table IH]; simpl; [discriminate|].
  destruct (re.match_ p line) eqn:E.
  - intros [= <-]. exists [], p, table. repeat split.
    + intros ? ? [].
    + congruence.
  - intros H. destruct (IH H) as (earlier & pattern & later & -> & Hno & Hm).
    exists ((d', p) :: earlier), pattern, later. repeat split; auto.
    intros d0 p0 [Heq|Hin]; [congruence|eauto].
Qed.

Lemma guess_lines_none lines :
  (forall line, In line lines -> no_signature guess_data line) ->
  guess_lines lines = (None, None).
Proof.
  induction lines as [|line rest IH]; cbn [guess_lines]; intros H;
    [reflexivity|].
  rewrite (proj2 (try_signatures_None guess_data line))
    by (apply H; now left).
  apply IH. intros l Hl. apply H. now right.
Qed.

Lemma guess_lines_first lines :
  (exists before line after d earlier pattern later,
      lines = before ++ line :: after /\
      guess_data = earlier ++ (d, pattern) :: later /\
      (forall l, In l before -> no_signature guess_data l) /\
      no_signature earlier line /\
      re.match_ pattern line <> None /\
      guess_lines lines = (Some (fst d), Some (snd d)))
  \/ ((forall l, In l lines -> no_signature guess_data l) /\
      guess_lines lines = (None, None)).
Proof.
  induction lines as [|line rest IH].
  - right. split; [intros ? []|reflexivity].
  - cbn [guess_lines].
    destruct (try_signatures guess_data line) as [[t o]|] eqn:E.
    + left. destruct (try_signatures_Some _ _ _ E)
        as (earlier & pattern & later & Ht & Hno & Hm).
      exists [], line, rest, (t, o), earlier, pattern, later.
      repeat split; auto. intros ? [].
    + apply try_signatures_None in E.
      destruct IH as [(before & l0 & after & d & earlier & pattern & later
                       & -> & Ht & Hb & Hno & Hm & Hg)|[Hall Hg]].
      * left. exists (line :: before), l0, after, d, earlier, pattern, later.
        repeat split; auto.
        intros l [<-|Hin]; auto.
      * right. split; auto. intros l [<-|Hin]; auto.
Qed.

End Classifier.

(** C3.  For every input text the classifier answers in one of two ways.
    Either some line matches some pattern: then, with [line] the first such
    line from the top and [pattern] the first entry of [guess_data], in
    table order, that matches [line], the answer is the descriptor of that
    entry.  Or no line matches any pattern, and the answer is
    [(None, None)]. *)
Theorem guess_dumpfile_type_and_os_first_match
        (fs : filesystem) (dumpfile text : string) :
  fs dumpfile = Some text ->
  (exists before line after d earlier pattern later,
      readlines text = before ++ line :: after /\
      parsers.guess_data = earlier ++ (d, pattern) :: later /\
      (forall l, In l before -> no_signature parsers.guess_data l) /\
      no_signature earlier line /\
      re.match_ pattern line <> None /\
      parsers.guess_dumpfile_type_and_os fs dumpfile
      = Return (Some (fst d), Some (snd d)))
  \/ ((forall l, In l (readlines text) -> no_signature parsers.guess_data l) /\
      parsers.guess_dumpfile_type_and_os fs dumpfile = Return (None, None)).
Proof.
  intros Hfs. unfold parsers.guess_dumpfile_type_and_os, open_readlines.
  rewrite Hfs. simpl.
  destruct (guess_lines_first (readlines text))
    as [(before & line & after & d & earlier & pattern & later
         & H1 & H2 & H3 & H4 & H5 & H6)|[H1 H2]].
  - left. exists before, line, after, d, earlier, pattern, later.
    rewrite H6. repeat split; auto.
  - right. rewrite H2. split; auto.
Qed.

Lemma guess_dumpfile_type_and_os_first_match_witness :
  let fs := single_file "arp.txt" arp_dump in
  fs "arp.txt" = Some arp_dump /\
  ((exists before line after d earlier pattern later,
       readlines arp_dump = before ++ line :: after /\
       parsers.guess_data = earlier ++ (d, pattern) :: later /\
       (forall l, In l before -> no_signature parsers.guess_data l) /\
       no_signature earlier line /\
       re.match_ pattern line <> None /\
       parsers.guess_dumpfile_type_and_os fs "arp.txt"
       = Return (Some (fst d), Some (snd d)))
   \/ ((forall l, In l (readlines arp_dump) ->
                  no_signature parsers.guess_data l) /\
       parsers.guess_dumpfile_type_and_os fs "arp.txt" = Return (None, None))).
Proof.
  split; [reflexivity|].
  apply (@guess_dumpfile_type_and_os_first_match
           (single_file "arp.txt" arp_dump) "arp.txt" arp_dump).
  reflexivity.
Defined.

Example classify_arp_dump :
  parsers.guess_dumpfile_type_and_os (single_file "arp.txt" arp_dump) "arp.txt"
  = Return (Some "arp", Some "windows").
Proof. vm_compute. reflexivity. Qed.

(** The header line of a Windows ARP dump classifies as (arp, windows). *)
Example classify_windows_arp_header :
  parsers.guess_lines [("Interface: 10.0.0.1 --- 0x11" ++ nl)%string]
  = (Some "arp", Some "windows").
Proof. vm_compute. reflexivity. Qed.

Example classify_linux_traceroute :
  parsers.guess_lines
    [("traceroute to example.com (93.184.216.34), 30 hops max, 60 byte packets"
        ++ nl)%string;
     ("  1  10.137.4.1  0.550 ms  0.463 ms  0.383 ms" ++ nl)%string]
  = (Some "traceroute", Some "linux").
Proof. vm_compute. reflexivity. Qed.

Example classify_nothing :
  parsers.guess_lines [("hello" ++ nl)%string; "world"] = (None, None).
Proof. vm_compute. reflexivity. Qed.

(* ------------------------------------------------------------------ *)
(** ** The traceroute extractor (parsers.py) *)

(** C4.  Without a centre IP, [parse_linux_tr] raises [MyException],
    whatever the file system and the dump file: it returns no list of
    nodes. *)
Theorem parse_linux_tr_requires_ip (fs : filesystem) (dumpfile : string) :
  parsers.parse_linux_tr fs dumpfile None
  = Raise (MyException parsers.no_centre_tr)
  /\ (forall hops, parsers.parse_linux_tr fs dumpfile None <> Return hops).
Proof. split; [reflexivity|intros hops; discriminate]. Qed.

Lemma hop_of_line_first_token (sp1 num sp2 tok rest : string) :
  run_of space_set sp1 ->
  run_of digit_set num ->
  run_of space_set sp2 ->
  run_of token_set tok ->
  stops token_set rest = true ->
  hop_of_line (sp1 ++ num ++ sp2 ++ tok ++ rest) = [Node1 (Some tok)].
Proof.
  intros H1 Hn H2 Ht Hrest. unfold hop_of_line.
  now rewrite (hop_re_first_token _ _ _ _ _ H1 Hn H2 Ht Hrest).
Qed.

Lemma parse_linux_tr_loop_hops lines hops :
  parsers.parse_linux_tr_loop lines hops = hops ++ flat_map hop_of_line lines.
Proof.
  revert hops. induction lines as [|line rest IH]; intros hops; simpl.
  - now rewrite app_nil_r.
  - unfold hop_of_line. destruct (re.match_ hop_re line) as [m|] eqn:E.
    + destruct hop_re_compiles as [r Hr].
      rewrite (@match_groups_length _ _ _ _ _ Hr E). simpl.
      rewrite IH, <- app_assoc. reflexivity.
    + apply IH.
Qed.

(** Given a centre IP and a readable file, the result is the centre node
    followed by one hop for each matching line, in the order of the
    lines. *)
Lemma parse_linux_tr_hops fs dumpfile text centre :
  fs dumpfile = Some text ->
  parsers.parse_linux_tr fs dumpfile (Some centre)
  = Return (Node1 (Some centre) :: flat_map hop_of_line (readlines text)).
Proof.
  intros Hfs. unfold parsers.parse_linux_tr, open_readlines.
  rewrite Hfs. simpl. now rewrite parse_linux_tr_loop_hops.
Qed.

(* ------------------------------------------------------------------ *)
(** ** The Windows ARP extractors (parsers.py, netgrapher.py) *)

Section WindowsArpLoop.

Variable host_re : string.

Lemma loop_mismatch hint lines :
  (exists line, In line lines /\ contradicts hint line) ->
  forall _local_ip nodes,
  exists found,
    found <> Some hint /\
    parse_windows_arp_loop host_re (Some hint) lines _local_ip nodes
    = Raise (MyException (ip_mismatch found (Some hint))).
Proof.
  induction lines as [|line rest IH]; intros (l & Hin & Hc) loc nodes.
  - destruct Hin.
  - cbn [parse_windows_arp_loop].
    destruct (re.match_ interface_re line) as [m|] eqn:E.
    + rewrite (interface_match_groups _ _ E).
      destruct (pystr_eqb_spec (re.group m 1) (Some hint)) as [Heq|Hne]; simpl.
      * destruct Hin as [<-|Hin].
        -- destruct Hc as (m' & Hm' & Hg). congruence.
        -- apply IH. eauto.
      * exists (re.group m 1). split; auto.
    + destruct Hin as [<-|Hin].
      * destruct Hc as (m' & Hm' & _). congruence.
      * destruct (re.match_ host_re line) as [m|];
          [destruct (Nat.leb 2 (List.length (re.groups m)))|];
          apply IH; eauto.
Qed.

Lemma loop_no_interface ip lines :
  (forall line, In line lines -> re.match_ interface_re line = None) ->
  forall _local_ip nodes,
  exists nodes',
    parse_windows_arp_loop host_re ip lines _local_ip nodes
    = Return (_local_ip, nodes').
Proof.
  induction lines as [|line rest IH]; intros Hno loc nodes.
  - exists nodes. reflexivity.
  - cbn [parse_windows_arp_loop].
    rewrite (Hno line (or_introl eq_refl)).
    destruct (re.match_ host_re line) as [m|];
      [destruct (Nat.leb 2 (List.length (re.groups m)))|];
      apply IH; intros l Hl; apply Hno; now right.
Qed.

End WindowsArpLoop.

(** C8.  A hint is supplied and some line of the file carries an interface
    marker with another IP: both copies of [parse_windows_arp] raise
    [MyException] with the text that names the IP found and the one
    supplied; neither returns a result. *)
Theorem parse_windows_arp_hint_mismatch
        (fs : filesystem) (dumpfile text hint line : string) :
  fs dumpfile = Some text ->
  In line (readlines text) ->
  contradicts hint line ->
  (exists found,
      found <> Some hint /\
      parsers.parse_windows_arp fs dumpfile (Some hint)
      = Raise (MyException (ip_mismatch found (Some hint)))) /\
  (exists found,
      found <> Some hint /\
      netgrapher.parse_windows_arp fs dumpfile (Some hint)
      = Raise (MyException (ip_mismatch found (Some hint)))) /\
  (forall r, parsers.parse_windows_arp fs dumpfile (Some hint) <> Return r) /\
  (forall r, netgrapher.parse_windows_arp fs dumpfile (Some hint) <> Return r).
Proof.
  intros Hfs Hin Hc.
  assert (Hex : exists l, In l (readlines text) /\ contradicts hint l)
    by eauto.
  destruct (loop_mismatch windows_host_re hint _ Hex None []) as (f1 & Hf1 & E1).
  destruct (loop_mismatch netgrapher.windows_host_re hint _ Hex None [])
    as (f2 & Hf2 & E2).
  unfold parsers.parse_windows_arp, netgrapher.parse_windows_arp,
    open_readlines.
  rewrite Hfs. cbn [bind]. rewrite E1, E2. cbn [bind].
  repeat split; eauto; intros r; discriminate.
Qed.

Lemma parse_windows_arp_hint_mismatch_witness :
  let fs := single_file "arp.txt" arp_dump in
  (exists found,
      found <> Some "10.0.0.1" /\
      parsers.parse_windows_arp fs "arp.txt" (Some "10.0.0.1")
      = Raise (MyException (ip_mismatch found (Some "10.0.0.1")))) /\
  (exists found,
      found <> Some "10.0.0.1" /\
      netgrapher.parse_windows_arp fs "arp.txt" (Some "10.0.0.1")
      = Raise (MyException (ip_mismatch found (Some "10.0.0.1")))) /\
  (forall r, parsers.parse_windows_arp fs "arp.txt" (Some "10.0.0.1")
             <> Return r) /\
  (forall r, netgrapher.parse_windows_arp fs "arp.txt" (Some "10.0.0.1")
             <> Return r).
Proof.
  apply (@parse_windows_arp_hint_mismatch
           (single_file "arp.txt" arp_dump) "arp.txt" arp_dump "10.0.0.1"
           ("Interface: 10.137.2.16 --- 0x11" ++ nl)%string).
  - reflexivity.
  - vm_compute. left. reflexivity.
  - exists (re.mkMatch [Some "10.137.2.16"]). split.
    + vm_compute. reflexivity.
    + simpl. discriminate.
Defined.

(** C10.  No line of the file carries an interface marker: both copies of
    [parse_windows_arp] raise [UnboundLocalError] for [_local_ip], whatever
    hint is supplied; neither returns a result, neither raises
    [MyException]. *)
Theorem parse_windows_arp_no_interface
        (fs : filesystem) (dumpfile text : string) (ip : option string) :
  fs dumpfile = Some text ->
  (forall line, In line (readlines text) ->
                re.match_ interface_re line = None) ->
  parsers.parse_windows_arp fs dumpfile ip
  = Raise (UnboundLocalError "_local_ip") /\
  netgrapher.parse_windows_arp fs dumpfile ip
  = Raise (UnboundLocalError "_local_ip").
Proof.
  intros Hfs Hno.
  destruct (loop_no_interface windows_host_re ip _ Hno None []) as (n1 & E1).
  destruct (loop_no_interface netgrapher.windows_host_re ip _ Hno None [])
    as (n2 & E2).
  unfold parsers.parse_windows_arp, netgrapher.parse_windows_arp,
    open_readlines.
  rewrite Hfs. cbn [bind]. rewrite E1, E2. split; reflexivity.
Qed.

Lemma parse_windows_arp_no_interface_witness :
  let fs := single_file "hosts.txt" hosts_only_dump in
  parsers.parse_windows_arp fs "hosts.txt" None
  = Raise (UnboundLocalError "_local_ip") /\
  netgrapher.parse_windows_arp fs "hosts.txt" None
  = Raise (UnboundLocalError "_local_ip").
Proof.
  apply (@parse_windows_arp_no_interface
           (single_file "hosts.txt" hosts_only_dump) "hosts.txt"
           hosts_only_dump None).
  - reflexivity.
  - intros line Hin. vm_compute in Hin.
    destruct Hin as [<-|[<-|[]]]; vm_compute; reflexivity.
Defined.

(* ------------------------------------------------------------------ *)
(** ** Growth (netgrapher.py) *)

Section Growth.

Import netgrapher.

Variable fs : filesystem.
Variable dumpfile : string.

(** No call of [augment_from_arp] changes the graph. *)
Lemma augment_from_arp_frame os ip G :
  snd (augment_from_arp fs dumpfile os ip G) = G.
Proof.
  unfold augment_from_arp, pbind, lift, raise, ret.
  destruct (os =? "windows"); [|reflexivity].
  destruct (parse_windows_arp fs dumpfile ip); reflexivity.
Qed.

(** No call of [grow_graph] changes the graph, whether it returns or
    raises. *)
Lemma grow_graph_frame os ty ip G :
  snd (grow_graph fs dumpfile os ty ip G) = G.
Proof.
  unfold grow_graph.
  destruct (negb (py_in (resolve_type dumpfile ty) SUPPORTED_DUMPFILES));
    [reflexivity|].
  destruct (negb (py_in (resolve_os dumpfile os) SUPPORTED_OS));
    [reflexivity|].
  destruct (resolve_type dumpfile ty =? "arp");
    [apply augment_from_arp_frame|].
  destruct (resolve_type dumpfile ty =? "route"); [reflexivity|].
  destruct (resolve_type dumpfile ty =? "traceroute"); reflexivity.
Qed.

(** What a call does is the same from any graph. *)
Lemma grow_graph_outcome os ty ip G G' :
  fst (grow_graph fs dumpfile os ty ip G)
  = fst (grow_graph fs dumpfile os ty ip G').
Proof.
  unfold grow_graph.
  destruct (negb (py_in (resolve_type dumpfile ty) SUPPORTED_DUMPFILES));
    [reflexivity|].
  destruct (negb (py_in (resolve_os dumpfile os) SUPPORTED_OS));
    [reflexivity|].
  destruct (resolve_type dumpfile ty =? "arp").
  - unfold augment_from_arp, pbind, lift, raise, ret.
    destruct (resolve_os dumpfile os =? "windows"); [|reflexivity].
    destruct (parse_windows_arp fs dumpfile ip); reflexivity.
  - destruct (resolve_type dumpfile ty =? "route"); [reflexivity|].
    destruct (resolve_type dumpfile ty =? "traceroute"); reflexivity.
Qed.

(** A dump of a type for which growth is not written raises before the
    file is read. *)
Lemma grow_graph_not_written os ty ip G :
  ty = "route" \/ ty = "traceroute" ->
  grow_graph fs dumpfile os (Some ty) ip G
  = (Raise (if resolve_os dumpfile os =? "windows"
            then NotImplementedError "Sorry, haven't written this yet"
            else MyException "Invalid OS"), G).
Proof.
  intros [-> | ->]; unfold grow_graph, py_in; simpl;
    destruct (resolve_os dumpfile os =? "windows"); reflexivity.
Qed.

End Growth.

(** C2.  Growth with the same dump reaches a fixed point at once: run on a
    graph [G] and run again on the graph that the first run leaves, the
    second run leaves the same set of nodes and the same set of edges, and
    ends as the first did.  The first run itself leaves [G] as it was. *)
Theorem grow_graph_idempotent
        (fs : filesystem) (dumpfile : string)
        (dumpfile_os dumpfile_type ip : option string) (G : Graph) :
  let first := netgrapher.grow_graph fs dumpfile dumpfile_os dumpfile_type ip G in
  let second :=
    netgrapher.grow_graph fs dumpfile dumpfile_os dumpfile_type ip (snd first) in
  graph_nodes (snd second) = graph_nodes (snd first) /\
  graph_edges (snd second) = graph_edges (snd first) /\
  fst second = fst first /\
  snd first = G.
Proof.
  cbv zeta. rewrite !grow_graph_frame.
  repeat split; reflexivity.
Qed.

(** C9.  A resolved (dump-type, OS) pair other than (arp, windows), the one
    pair handed to an extractor: [grow_graph] raises, and the graph is the
    one it was given.  The exception is [MyException] for a type, then for
    an OS, outside the supported lists, and [NotImplementedError] for route
    and traceroute on a supported OS. *)
Theorem grow_graph_unsupported
        (fs : filesystem) (dumpfile : string)
        (dumpfile_os dumpfile_type ip : option string) (G : Graph) :
  let t := netgrapher.resolve_type dumpfile dumpfile_type in
  let o := netgrapher.resolve_os dumpfile dumpfile_os in
  netgrapher.has_extractor t o = false ->
  netgrapher.grow_graph fs dumpfile dumpfile_os dumpfile_type ip G
  = (Raise (if negb (netgrapher.py_in t netgrapher.SUPPORTED_DUMPFILES)
            then MyException "Invalid dumpfile"
            else if negb (netgrapher.py_in o netgrapher.SUPPORTED_OS)
            then MyException "Invalid OS"
            else NotImplementedError "Sorry, haven't written this yet"),
     G).
Proof.
  cbv zeta.
  unfold netgrapher.has_extractor, netgrapher.grow_graph, netgrapher.py_in.
  generalize (netgrapher.resolve_type dumpfile dumpfile_type) as t.
  generalize (netgrapher.resolve_os dumpfile dumpfile_os) as o.
  intros o t H. simpl.
  destruct (String.eqb_spec t "arp") as [Ea|Ha]; simpl in *.
  - destruct (String.eqb_spec o "windows"); [discriminate|reflexivity].
  - destruct (String.eqb_spec t "route") as [Er|Hr]; simpl.
    + destruct (String.eqb_spec o "windows"); reflexivity.
    + destruct (String.eqb_spec t "traceroute") as [Et|Ht]; simpl.
      * destruct (String.eqb_spec o "windows"); reflexivity.
      * reflexivity.
Qed.

Lemma grow_graph_unsupported_witness :
  let fs := single_file "arp.txt" arp_dump in
  let G := mkGraph [Node1 (Some "10.0.0.9")] [] in
  netgrapher.grow_graph fs "arp.txt" (Some "linux") (Some "arp") None G
  = (Raise (MyException "Invalid OS"), G).
Proof.
  apply (grow_graph_unsupported (single_file "arp.txt" arp_dump) "arp.txt"
           (Some "linux") (Some "arp") None
           (mkGraph [Node1 (Some "10.0.0.9")] [])).
  reflexivity.
Defined.

(** *** The scenarios, run *)

Example classify_route_dump :
  parsers.guess_dumpfile_type_and_os (single_file "route.txt" route_dump)
                                     "route.txt"
  = Return (Some "route", Some "linux").
Proof. vm_compute. reflexivity. Qed.

(** C5, at the failing input.  Growth from a route dump, started on the
    empty graph, raises [NotImplementedError] from [augment_from_route]
    ([MyException] for the OS when the OS is given as linux, the guess of
    the classifier for this file).  It leaves the edge set empty, and the
    node set empty as well: the gateway of the dump is not added. *)
Theorem grow_graph_route_adds_nothing :
  let fs := single_file "route.txt" route_dump in
  let grown :=
    netgrapher.grow_graph fs "route.txt" None (Some "route") None empty_graph in
  let grown_linux :=
    netgrapher.grow_graph fs "route.txt" (Some "linux") (Some "route") None
                          empty_graph in
  fst grown = Raise (NotImplementedError "Sorry, haven't written this yet") /\
  graph_edges (snd grown) = [] /\
  graph_nodes (snd grown) = [] /\
  ~ In (Node1 (Some "10.137.2.1")) (graph_nodes (snd grown)) /\
  fst grown_linux = Raise (MyException "Invalid OS") /\
  graph_edges (snd grown_linux) = [] /\
  graph_nodes (snd grown_linux) = [].
Proof.
  cbv zeta. repeat split; try (vm_compute; reflexivity).
  vm_compute. intros [].
Qed.

(** C6, at the failing input.  On the Windows ARP dump of the scenario the
    extractor of parsers.py returns the centre node 10.137.2.16 and the one
    node 10.137.2.1 with MAC fe-ff-ff-ff-ff-ff; the copy in netgrapher.py
    returns the same centre and the node with the MAC cut to
    fe-ff-ff-ff-ff-f.  Growth from the dump, started on the empty graph,
    returns and leaves the graph empty: neither node is in it, and no edge
    between them. *)
Theorem grow_graph_arp_adds_nothing :
  let fs := single_file "arp.txt" arp_dump in
  let centre := Node1 (Some "10.137.2.16") in
  let host := mkNode (Some "10.137.2.1") (Some "fe-ff-ff-ff-ff-ff") in
  let grown :=
    netgrapher.grow_graph fs "arp.txt" (Some "windows") (Some "arp") None
                          empty_graph in
  parsers.parse_windows_arp fs "arp.txt" None = Return (centre, [host]) /\
  netgrapher.parse_windows_arp fs "arp.txt" None
  = Return [(centre, [mkNode (Some "10.137.2.1") (Some "fe-ff-ff-ff-ff-f")])] /\
  fst grown = Return tt /\
  graph_nodes (snd grown) = [] /\
  graph_edges (snd grown) = [] /\
  ~ In (centre, host) (graph_edges (snd grown)).
Proof.
  cbv zeta. repeat split; try (vm_compute; reflexivity).
  vm_compute. intros [].
Qed.

(** C7, at the failing input.  On the traceroute dump of the scenario, with
    the centre IP 10.0.0.1, the extractor returns the hops 10.0.0.1 and
    10.137.4.1 in this order.  Growth from the dump, started on the empty
    graph, raises [NotImplementedError] from [augment_from_tr]
    ([MyException] for the OS when the OS is given as linux) and leaves the
    graph empty: there is no edge between the two hops. *)
Theorem grow_graph_traceroute_adds_nothing :
  let fs := single_file "tr.txt" tr_dump in
  let centre := Node1 (Some "10.0.0.1") in
  let hop := Node1 (Some "10.137.4.1") in
  let grown :=
    netgrapher.grow_graph fs "tr.txt" None (Some "traceroute")
                          (Some "10.0.0.1") empty_graph in
  let grown_linux :=
    netgrapher.grow_graph fs "tr.txt" (Some "linux") (Some "traceroute")
                          (Some "10.0.0.1") empty_graph in
  parsers.parse_linux_tr fs "tr.txt" (Some "10.0.0.1")
  = Return [centre; hop] /\
  fst grown = Raise (NotImplementedError "Sorry, haven't written this yet") /\
  graph_nodes (snd grown) = [] /\
  graph_edges (snd grown) = [] /\
  ~ In (centre, hop) (graph_edges (snd grown)) /\
  fst grown_linux = Raise (MyException "Invalid OS") /\
  graph_edges (snd grown_linux) = [].
Proof.
  cbv zeta. repeat split; try (vm_compute; reflexivity).
  vm_compute. intros [].
Qed.

(* ================================================================== *)
(** * Further properties of the code *)

(* ------------------------------------------------------------------ *)
(** ** The matcher: what a success passes through *)

Section Through.

Variable I : re.caps -> Prop.
Hypothesis I_cons : forall j v c, I c -> I ((j, v) :: c).

Lemma more_through (body : re.matcher) (k : re.kont) :
  through I body ->
  forall fuel s c res,
    I c -> re.more body k fuel s c = Some res ->
    exists s' c', I c' /\ k s' c' = Some res /\
                  String.length s' <= String.length s.
Proof.
  intros Hbody. induction fuel as [|fuel IH]; intros s c res Hc H.
  - exists s, c. auto.
  - cbn [re.more] in H.
    destruct (body s c _) as [res0|] eqn:E.
    + injection H as ->.
      destruct (Hbody _ _ _ _ Hc E) as (s1 & c1 & Hc1 & H1 & Hlen).
      destruct (Nat.ltb (String.length s1) (String.length s)); [|discriminate].
      destruct (IH _ _ _ Hc1 H1) as (s' & c' & Hc' & Hk & Hlen').
      exists s', c'. repeat split; auto. lia.
    + exists s, c. auto.
Qed.

Lemma times_through (body : re.matcher) (k : re.kont) :
  through I body ->
  forall n s c res,
    I c -> re.times body k n s c = Some res ->
    exists s' c', I c' /\ k s' c' = Some res /\
                  String.length s' <= String.length s.
Proof.
  intros Hbody. induction n as [|n IH]; intros s c res Hc H.
  - exists s, c. auto.
  - cbn [re.times] in H.
    destruct (Hbody _ _ _ _ Hc H) as (s1 & c1 & Hc1 & H1 & Hlen).
    destruct (IH _ _ _ Hc1 H1) as (s' & c' & Hc' & Hk & Hlen').
    exists s', c'. repeat split; auto. lia.
Qed.

Lemma run_through (r : re.regex) (total : nat) :
  through I (re.run r total).
Proof.
  induction r as [| a | | cs | | | r1 IH1 r2 IH2 | r1 IH1 | n r1 IH1 | i r1 IH1];
    intros s c k res Hc H; cbn [re.run] in H.
  - exists s, c. auto.
  - destruct s as [|x s']; [discriminate|].
    destruct (Ascii.eqb x a); [|discriminate].
    exists s', c. cbn [String.length]. auto.
  - destruct s as [|x s']; [discriminate|].
    destruct (Ascii.eqb x newline); [discriminate|].
    exists s', c. cbn [String.length]. auto.
  - destruct s as [|x s']; [discriminate|].
    destruct (re.in_set cs x); [|discriminate].
    exists s', c. cbn [String.length]. auto.
  - destruct (Nat.eqb (String.length s) total); [|discriminate].
    exists s, c. auto.
  - destruct (re.at_end s); [|discriminate].
    exists s, c. auto.
  - destruct (IH1 _ _ _ _ Hc H) as (s1 & c1 & Hc1 & H1 & Hlen).
    destruct (IH2 _ _ _ _ Hc1 H1) as (s' & c' & Hc' & Hk & Hlen').
    exists s', c'. repeat split; auto. lia.
  - destruct (IH1 _ _ _ _ Hc H) as (s1 & c1 & Hc1 & H1 & Hlen).
    destruct (more_through _ k IH1 _ _ _ _ Hc1 H1)
      as (s' & c' & Hc' & Hk & Hlen').
    exists s', c'. repeat split; auto. lia.
  - exact (times_through _ k IH1 _ _ _ _ Hc H).
  - destruct (IH1 _ _ _ _ Hc H) as (s' & c' & Hc' & Hk & Hlen).
    exists s', ((i, re.prefix (String.length s - String.length s') s) :: c').
    auto.
Qed.

End Through.

Lemma has_group_cons i j v c : has_group i c -> has_group i ((j, v) :: c).
Proof.
  unfold has_group. cbn [re.lookup].
  destruct (Nat.eqb i j); [discriminate|auto].
Qed.

Lemma run_passes (r : re.regex) (total : nat) s c k res :
  re.run r total s c k = Some res ->
  exists s' c', k s' c' = Some res /\ String.length s' <= String.length s.
Proof.
  intros H.
  destruct (run_through (fun _ => True) (fun _ _ _ _ => Logic.I) r total
                        s c k res Logic.I H) as (s' & c' & _ & Hk & Hlen).
  eauto.
Qed.

(** A success of a pattern that passes through the group [i] hands on
    captures in which the group [i] has taken part. *)
Lemma run_sets (i : nat) (r : re.regex) (total : nat) :
  sets i r = true ->
  forall s c k res,
    re.run r total s c k = Some res ->
    exists s' c', has_group i c' /\ k s' c' = Some res.
Proof.
  induction r as [| a | | cs | | | r1 IH1 r2 IH2 | r1 IH1 | n r1 IH1 | j r1 IH1];
    cbn [sets]; intros Hs s c k res H; try discriminate.
  - rewrite run_seq in H. apply orb_true_iff in Hs as [Hs|Hs].
    + destruct (IH1 Hs _ _ _ _ H) as (s1 & c1 & Hc1 & H1).
      destruct (run_through (has_group i) (has_group_cons i) r2 total
                            _ _ _ _ Hc1 H1) as (s' & c' & Hc' & Hk & _).
      eauto.
    + destruct (run_passes _ _ _ _ _ _ H) as (s1 & c1 & H1 & _).
      exact (IH2 Hs _ _ _ _ H1).
  - cbn [re.run] in H.
    destruct (IH1 Hs _ _ _ _ H) as (s1 & c1 & Hc1 & H1).
    destruct (more_through (has_group i) (re.run r1 total) k
                (run_through (has_group i) (has_group_cons i) r1 total)
                _ _ _ _ Hc1 H1) as (s' & c' & Hc' & Hk & _).
    eauto.
  - apply andb_true_iff in Hs as [Hn Hs]. cbn [re.run] in H.
    destruct n as [|n]; [discriminate|]. cbn [re.times] in H.
    destruct (IH1 Hs _ _ _ _ H) as (s1 & c1 & Hc1 & H1).
    destruct (times_through (has_group i) (re.run r1 total) k
                (run_through (has_group i) (has_group_cons i) r1 total)
                _ _ _ _ Hc1 H1) as (s' & c' & Hc' & Hk & _).
    eauto.
  - rewrite run_group in H. destruct (Nat.eqb_spec i j) as [->|Hne].
    + destruct (run_passes _ _ _ _ _ _ H) as (s' & c' & Hk & _).
      exists s', ((j, re.prefix (String.length s - String.length s') s) :: c').
      split; [|exact Hk].
      unfold has_group. cbn [re.lookup]. now rewrite Nat.eqb_refl.
    + cbn [orb] in Hs. destruct (IH1 Hs _ _ _ _ H) as (s' & c' & Hc' & Hk).
      exists s', ((j, re.prefix (String.length s - String.length s') s) :: c').
      split; [now apply has_group_cons|exact Hk].
Qed.

Lemma nth_groups (f : nat -> option string) (i n : nat) :
  1 <= i <= n ->
  nth (i - 1) (map f (seq 1 n)) None = f i.
Proof.
  intros Hi.
  rewrite (nth_indep _ None (f 0)) by (rewrite length_map, length_seq; lia).
  rewrite map_nth, seq_nth by lia. f_equal. lia.
Qed.

(** [m.group(i)] is a [str], not [None], for a group that every match of
    the pattern passes through. *)
Lemma match_group_set (pattern : string) (r : re.regex) (n i : nat)
      (text : string) (m : re.match_object) :
  re.compile pattern = Some (r, n) ->
  sets i r = true ->
  1 <= i <= n ->
  re.match_ pattern text = Some m ->
  exists v, re.group m i = Some v.
Proof.
  intros Hc Hs Hi Hm. unfold re.match_ in Hm. rewrite Hc in Hm.
  destruct (re.run r (String.length text) text [] (fun _ c => Some c))
    as [res|] eqn:E; [|discriminate].
  injection Hm as <-. unfold re.group. cbn [re.groups].
  rewrite nth_groups by exact Hi.
  destruct (run_sets i r _ Hs _ _ _ _ E) as (s' & c' & Hc' & Hk).
  injection Hk as <-. unfold has_group in Hc'.
  destruct (re.lookup i c') as [v|]; [eauto|congruence].
Qed.

(** Every match of a pattern of width [w] takes [w] characters. *)
Lemma run_width (r : re.regex) (total : nat) :
  forall w s c k res,
    width r = Some w ->
    re.run r total s c k = Some res ->
    exists s' c', k s' c' = Some res /\
                  String.length s = w + String.length s'.
Proof.
  induction r as [| a | | cs | | | r1 IH1 r2 IH2 | r1 IH1 | n r1 IH1 | j r1 IH1];
    cbn [width]; intros w s c k res Hw H; cbn [re.run] in H.
  - injection Hw as <-. exists s, c. auto.
  - injection Hw as <-. destruct s as [|x s']; [discriminate|].
    destruct (Ascii.eqb x a); [|discriminate]. exists s', c. auto.
  - injection Hw as <-. destruct s as [|x s']; [discriminate|].
    destruct (Ascii.eqb x newline); [discriminate|]. exists s', c. auto.
  - injection Hw as <-. destruct s as [|x s']; [discriminate|].
    destruct (re.in_set cs x); [|discriminate]. exists s', c. auto.
  - injection Hw as <-.
    destruct (Nat.eqb (String.length s) total); [|discriminate].
    exists s, c. auto.
  - injection Hw as <-. destruct (re.at_end s); [|discriminate].
    exists s, c. auto.
  - destruct (width r1) as [w1|]; [|discriminate].
    destruct (width r2) as [w2|]; [|discriminate]. injection Hw as <-.
    destruct (IH1 _ _ _ _ _ eq_refl H) as (s1 & c1 & H1 & Hl1).
    destruct (IH2 _ _ _ _ _ eq_refl H1) as (s' & c' & Hk & Hl2).
    exists s', c'. split; [exact Hk|lia].
  - discriminate.
  - destruct (width r1) as [w1|]; [|discriminate].
    cbn [option_map] in Hw. injection Hw as <-.
    revert s c H. induction n as [|n IHn]; intros s c H; cbn [re.times] in H.
    + exists s, c. auto.
    + destruct (IH1 _ _ _ _ _ eq_refl H) as (s1 & c1 & H1 & Hl1).
      destruct (IHn _ _ H1) as (s' & c' & Hk & Hl2).
      exists s', c'. split; [exact Hk|lia].
  - destruct (IH1 _ _ _ _ _ Hw H) as (s' & c' & Hk & Hl).
    exists s', ((j, re.prefix (String.length s - String.length s') s) :: c').
    auto.
Qed.

Lemma prefix_length (n : nat) (s : string) :
  n <= String.length s -> String.length (re.prefix n s) = n.
Proof.
  unfold re.prefix. revert s. induction n as [|n IH]; intros s Hn.
  - destruct s; reflexivity.
  - destruct s as [|x s]; cbn [String.length] in Hn; [lia|].
    cbn [substring String.length]. rewrite IH; [reflexivity|lia].
Qed.

Lemma run_last_group (r g : re.regex) (i w : nat) :
  last_group r = Some (i, g) ->
  width g = Some w ->
  forall total s c res,
    re.run r total s c (fun _ c' => Some c') = Some res ->
    exists v, re.lookup i res = Some v /\ String.length v = w.
Proof.
  intros Hl Hw.
  induction r as [| a | | cs | | | r1 IH1 r2 IH2 | r1 IH1 | k r1 IH1 | j r1 IH1];
    cbn [last_group] in Hl; try discriminate; intros total s c res E.
  - rewrite run_seq in E.
    destruct (run_passes _ _ _ _ _ _ E) as (s1 & c1 & H1 & _).
    exact (IH2 Hl _ _ _ _ H1).
  - injection Hl as -> ->. rewrite run_group in E.
    destruct (run_width _ _ _ _ _ _ _ Hw E) as (s' & c' & Hk & Hlen).
    injection Hk as <-. cbn [re.lookup]. rewrite Nat.eqb_refl.
    eexists. split; [reflexivity|].
    rewrite prefix_length; lia.
Qed.

(** The group that ends a pattern, when it has the width [w], holds [w]
    characters after every match. *)
Lemma match_last_group_width (pattern : string) (r g : re.regex)
      (n i w : nat) (text : string) (m : re.match_object) :
  re.compile pattern = Some (r, n) ->
  last_group r = Some (i, g) ->
  width g = Some w ->
  1 <= i <= n ->
  re.match_ pattern text = Some m ->
  exists v, re.group m i = Some v /\ String.length v = w.
Proof.
  intros Hc Hl Hw Hi Hm. unfold re.match_ in Hm. rewrite Hc in Hm.
  destruct (re.run r (String.length text) text [] (fun _ c => Some c))
    as [res|] eqn:E; [|discriminate].
  injection Hm as <-. unfold re.group. cbn [re.groups].
  rewrite nth_groups by exact Hi.
  exact (run_last_group _ _ _ _ Hl Hw _ _ _ _ E).
Qed.

(* ------------------------------------------------------------------ *)
(** ** What the patterns of the extractors capture *)

Ltac compiled pattern r n Hc :=
  destruct (re.compile pattern) as [[r n]|] eqn:Hc;
  [ let H := fresh in
    pose proof Hc as H; vm_compute in H; injection H as <- <-
  | vm_compute in Hc; discriminate ].

(** The IP of an interface marker is a [str]. *)
Lemma interface_ip_str line v :
  interface_ip line = Some v -> exists s, v = Some s.
Proof.
  unfold interface_ip. destruct (re.match_ interface_re line) as [m|] eqn:E;
    [|discriminate].
  intros [= <-]. compiled interface_re r n Hc.
  destruct (match_group_set interface_re _ _ 1 line m Hc eq_refl
              (conj (le_n 1) (le_n 1)) E) as [s Hs].
  eauto.
Qed.

(** A host line of a Windows ARP dump, read by parsers.py, gives a node
    with an IP and a MAC of 17 characters. *)
Lemma windows_host_nodes line nd :
  In nd (host_nodes windows_host_re line) ->
  exists a b, nd = mkNode (Some a) (Some b) /\ String.length b = 17.
Proof.
  unfold host_nodes.
  destruct (re.match_ windows_host_re line) as [m|] eqn:E; [|intros []].
  compiled windows_host_re r n Hc.
  rewrite (match_groups_length _ _ _ _ _ Hc E). cbn [Nat.leb].
  intros [<-|[]].
  destruct (match_group_set windows_host_re _ _ 1 line m Hc eq_refl
              ltac:(lia) E) as [a Ha].
  destruct (match_last_group_width windows_host_re _ _ _ 2 17 line m Hc
              eq_refl eq_refl ltac:(lia) E) as (b & Hb & Hlen).
  exists a, b. now rewrite Ha, Hb.
Qed.

(** Read by netgrapher.py, the MAC has 16 characters: the last digit is
    left out. *)
Lemma netgrapher_host_nodes line nd :
  In nd (host_nodes netgrapher.windows_host_re line) ->
  exists a b, nd = mkNode (Some a) (Some b) /\ String.length b = 16.
Proof.
  unfold host_nodes.
  destruct (re.match_ netgrapher.windows_host_re line) as [m|] eqn:E;
    [|intros []].
  compiled netgrapher.windows_host_re r n Hc.
  rewrite (match_groups_length _ _ _ _ _ Hc E). cbn [Nat.leb].
  intros [<-|[]].
  destruct (match_group_set netgrapher.windows_host_re _ _ 1 line m Hc eq_refl
              ltac:(lia) E) as [a Ha].
  destruct (match_last_group_width netgrapher.windows_host_re _ _ _ 2 16
              line m Hc eq_refl eq_refl ltac:(lia) E) as (b & Hb & Hlen).
  exists a, b. now rewrite Ha, Hb.
Qed.

Lemma linux_host_nodes line nd :
  In nd (host_nodes linux_host_re line) ->
  exists a b, nd = mkNode (Some a) (Some b) /\ String.length b = 17.
Proof.
  unfold host_nodes.
  destruct (re.match_ linux_host_re line) as [m|] eqn:E; [|intros []].
  compiled linux_host_re r n Hc.
  rewrite (match_groups_length _ _ _ _ _ Hc E). cbn [Nat.leb].
  intros [<-|[]].
  destruct (match_group_set linux_host_re _ _ 1 line m Hc eq_refl
              ltac:(lia) E) as [a Ha].
  destruct (match_last_group_width linux_host_re _ _ _ 2 17 line m Hc
              eq_refl eq_refl ltac:(lia) E) as (b & Hb & Hlen).
  exists a, b. now rewrite Ha, Hb.
Qed.

Lemma pooled_hosts_in host_re lines nd :
  In nd (pooled_hosts host_re lines) ->
  exists line, In line lines /\ interface_ip line = None /\
               In nd (host_nodes host_re line).
Proof.
  unfold pooled_hosts. rewrite in_flat_map. intros (line & Hin & Hnd).
  exists line. destruct (interface_ip line); [destruct Hnd|auto].
Qed.

(* ------------------------------------------------------------------ *)
(** ** The Windows ARP extractors as functions of the lines *)

Lemma centre_after_cons line rest start :
  centre_after (line :: rest) start
  = centre_after rest (match interface_ip line with
                       | Some v => Some v
                       | None => start
                       end).
Proof. reflexivity. Qed.

Lemma pooled_hosts_cons host_re line rest :
  pooled_hosts host_re (line :: rest)
  = match interface_ip line with
    | Some _ => []
    | None => host_nodes host_re line
    end ++ pooled_hosts host_re rest.
Proof. reflexivity. Qed.

Lemma loop_answer host_re ip lines :
  forall _local_ip nodes,
    parse_windows_arp_loop host_re ip lines _local_ip nodes
    = match first_contradiction ip lines with
      | Some found => Raise (MyException (ip_mismatch found ip))
      | None => Return (centre_after lines _local_ip,
                        nodes ++ pooled_hosts host_re lines)
      end.
Proof.
  induction lines as [|line rest IH]; intros loc nodes.
  - cbn. now rewrite app_nil_r.
  - rewrite centre_after_cons, pooled_hosts_cons.
    cbn [parse_windows_arp_loop first_contradiction].
    destruct (re.match_ interface_re line) as [m|] eqn:E.
    + assert (Hi : interface_ip line = Some (re.group m 1))
        by (unfold interface_ip; now rewrite E).
      rewrite Hi, (interface_match_groups _ _ E).
      destruct ip as [hint|].
      * destruct (pystr_eqb (re.group m 1) (Some hint)); cbn [negb];
          [|reflexivity].
        rewrite IH. reflexivity.
      * rewrite IH. reflexivity.
    + assert (Hi : interface_ip line = None)
        by (unfold interface_ip; now rewrite E).
      rewrite Hi. unfold host_nodes.
      destruct (re.match_ host_re line) as [mh|];
        [destruct (Nat.leb 2 (List.length (re.groups mh)))|];
        rewrite IH; destruct (first_contradiction ip rest);
        try reflexivity; cbn [app]; now rewrite <- ?app_assoc.
Qed.

Lemma centre_after_app l1 l2 start :
  centre_after (l1 ++ l2) start = centre_after l2 (centre_after l1 start).
Proof. unfold centre_after. apply fold_left_app. Qed.

Lemma centre_after_none lines start :
  (forall line, In line lines -> interface_ip line = None) ->
  centre_after lines start = start.
Proof.
  revert start. induction lines as [|line rest IH]; intros start H;
    [reflexivity|].
  cbn [centre_after fold_left]. rewrite (H line (or_introl eq_refl)).
  apply IH. intros l Hl. apply H. now right.
Qed.

(** The value that [_local_ip] ends with is the one it started with or
    the IP of some interface marker. *)
Lemma centre_after_origin lines start v :
  centre_after lines start = Some v ->
  start = Some v \/ exists line, In line lines /\ interface_ip line = Some v.
Proof.
  revert start. induction lines as [|line rest IH]; intros start H.
  - now left.
  - cbn [centre_after fold_left] in H.
    destruct (interface_ip line) as [w|] eqn:E.
    + destruct (IH _ H) as [[= <-]|(l & Hl & Hv)].
      * right. exists line. split; [now left|exact E].
      * right. exists l. split; [now right|exact Hv].
    + destruct (IH _ H) as [Hs|(l & Hl & Hv)]; [now left|].
      right. exists l. split; [now right|exact Hv].
Qed.

(** Without a contradiction, every interface marker carries the hint. *)
Lemma first_contradiction_none hint lines :
  first_contradiction (Some hint) lines = None ->
  forall line v, In line lines -> interface_ip line = Some v -> v = Some hint.
Proof.
  induction lines as [|l rest IH]; intros H line v Hin Hv; [destruct Hin|].
  cbn [first_contradiction] in H.
  destruct Hin as [<-|Hin].
  - rewrite Hv in H.
    destruct (pystr_eqb_spec v (Some hint)); [assumption|discriminate].
  - destruct (interface_ip l) as [w|];
      [destruct (pystr_eqb w (Some hint)); [|discriminate]|];
      eapply IH; eauto.
Qed.

Lemma first_contradiction_no_hint lines :
  first_contradiction None lines = None.
Proof.
  induction lines as [|l rest IH]; [reflexivity|].
  cbn [first_contradiction]. now destruct (interface_ip l).
Qed.

Lemma parsers_windows_arp_eq fs dumpfile ip :
  parsers.parse_windows_arp fs dumpfile ip
  = (lines <- open_readlines fs dumpfile ;;
     a <- windows_arp_answer windows_host_re ip lines ;;
     Return (Node1 (fst a), snd a)).
Proof.
  unfold parsers.parse_windows_arp, windows_arp_answer.
  destruct (open_readlines fs dumpfile) as [lines|e]; [|reflexivity].
  cbn [bind]. rewrite loop_answer.
  destruct (first_contradiction ip lines); [reflexivity|]. cbn [bind app].
  destruct (centre_after lines None); reflexivity.
Qed.

Lemma netgrapher_windows_arp_eq fs dumpfile ip :
  netgrapher.parse_windows_arp fs dumpfile ip
  = (lines <- open_readlines fs dumpfile ;;
     a <- windows_arp_answer netgrapher.windows_host_re ip lines ;;
     Return [(Node1 (fst a), snd a)]).
Proof.
  unfold netgrapher.parse_windows_arp, windows_arp_answer.
  destruct (open_readlines fs dumpfile) as [lines|e]; [|reflexivity].
  cbn [bind]. rewrite loop_answer.
  destruct (first_contradiction ip lines); [reflexivity|]. cbn [bind app].
  destruct (centre_after lines None); reflexivity.
Qed.

Lemma answer_returns host_re ip lines c ns :
  windows_arp_answer host_re ip lines = Return (c, ns) ->
  first_contradiction ip lines = None /\
  centre_after lines None = Some c /\
  ns = pooled_hosts host_re lines.
Proof.
  unfold windows_arp_answer.
  destruct (first_contradiction ip lines); [discriminate|].
  destruct (centre_after lines None); [|discriminate].
  intros [= <- <-]. auto.
Qed.

Lemma parsers_windows_arp_returns fs dumpfile ip centre nodes :
  parsers.parse_windows_arp fs dumpfile ip = Return (centre, nodes) ->
  exists text c,
    fs dumpfile = Some text /\
    windows_arp_answer windows_host_re ip (readlines text) = Return (c, nodes) /\
    centre = Node1 c.
Proof.
  rewrite parsers_windows_arp_eq. unfold open_readlines.
  destruct (fs dumpfile) as [text|]; [|discriminate]. cbn [bind].
  destruct (windows_arp_answer windows_host_re ip (readlines text))
    as [[c ns]|e] eqn:Ea; [|discriminate].
  cbn [bind fst snd]. intros [= <- <-]. exists text, c. auto.
Qed.

Lemma netgrapher_windows_arp_returns fs dumpfile ip d :
  netgrapher.parse_windows_arp fs dumpfile ip = Return d ->
  exists text c nodes,
    fs dumpfile = Some text /\
    windows_arp_answer netgrapher.windows_host_re ip (readlines text)
    = Return (c, nodes) /\
    d = [(Node1 c, nodes)].
Proof.
  rewrite netgrapher_windows_arp_eq. unfold open_readlines.
  destruct (fs dumpfile) as [text|]; [|discriminate]. cbn [bind].
  destruct (windows_arp_answer netgrapher.windows_host_re ip (readlines text))
    as [[c ns]|e] eqn:Ea; [|discriminate].
  cbn [bind fst snd]. intros [= <-]. exists text, c, ns. auto.
Qed.

(** X1.  Both copies of [parse_windows_arp], as functions of the lines of the
    file.  An unreadable file raises [IOError].  Otherwise the first
    interface marker whose IP is not the hint raises [MyException]; without
    such a marker, a file without any marker raises [UnboundLocalError];
    and in what is left the centre is the IP of the last marker and the
    nodes are those of all the host lines, in the order of the file. *)
Theorem parse_windows_arp_answer
        (fs : filesystem) (dumpfile : string) (ip : option string) :
  parsers.parse_windows_arp fs dumpfile ip
  = (lines <- open_readlines fs dumpfile ;;
     a <- windows_arp_answer windows_host_re ip lines ;;
     Return (Node1 (fst a), snd a)) /\
  netgrapher.parse_windows_arp fs dumpfile ip
  = (lines <- open_readlines fs dumpfile ;;
     a <- windows_arp_answer netgrapher.windows_host_re ip lines ;;
     Return [(Node1 (fst a), snd a)]).
Proof.
  split; [apply parsers_windows_arp_eq|apply netgrapher_windows_arp_eq].
Qed.

(** X2.  With a hint, a call that returns names the hint as the centre; and
    when the copy in parsers.py returns, the copy in netgrapher.py returns
    too, with the same centre. *)
Theorem parse_windows_arp_returns_hint
        (fs : filesystem) (dumpfile hint : string)
        (centre : Node) (nodes : list Node) :
  parsers.parse_windows_arp fs dumpfile (Some hint) = Return (centre, nodes) ->
  centre = Node1 (Some hint) /\
  exists nodes',
    netgrapher.parse_windows_arp fs dumpfile (Some hint)
    = Return [(Node1 (Some hint), nodes')].
Proof.
  intros H.
  destruct (parsers_windows_arp_returns _ _ _ _ _ H)
    as (text & c & Hfs & Ha & ->).
  destruct (answer_returns _ _ _ _ _ Ha) as (Hfc & Hc & _).
  assert (Hhint : c = Some hint).
  { destruct (centre_after_origin _ _ _ Hc) as [[=]|(l & Hl & Hv)].
    exact (first_contradiction_none _ _ Hfc _ _ Hl Hv). }
  subst c. split; [reflexivity|].
  rewrite netgrapher_windows_arp_eq. unfold open_readlines, windows_arp_answer.
  rewrite Hfs. cbn [bind]. rewrite Hfc, Hc. cbn [bind fst snd]. eauto.
Qed.

Lemma parse_windows_arp_returns_hint_witness :
  Node1 (Some "10.137.2.16") = Node1 (Some "10.137.2.16") /\
  exists nodes',
    netgrapher.parse_windows_arp (single_file "arp.txt" arp_dump) "arp.txt"
                                 (Some "10.137.2.16")
    = Return [(Node1 (Some "10.137.2.16"), nodes')].
Proof.
  apply (parse_windows_arp_returns_hint
           (single_file "arp.txt" arp_dump) "arp.txt" "10.137.2.16"
           (Node1 (Some "10.137.2.16"))
           [mkNode (Some "10.137.2.1") (Some "fe-ff-ff-ff-ff-ff")]).
  vm_compute. reflexivity.
Defined.

(** X3.  Without a hint, the centre is the IP of the last interface marker of
    the file, and the host lines under every marker are returned as its
    neighbours. *)
Theorem parse_windows_arp_last_interface
        (fs : filesystem) (dumpfile text : string)
        (before after : list string) (line : string) (v : option string) :
  fs dumpfile = Some text ->
  readlines text = before ++ line :: after ->
  interface_ip line = Some v ->
  (forall l, In l after -> interface_ip l = None) ->
  parsers.parse_windows_arp fs dumpfile None
  = Return (Node1 v, pooled_hosts windows_host_re (readlines text)) /\
  netgrapher.parse_windows_arp fs dumpfile None
  = Return [(Node1 v,
             pooled_hosts netgrapher.windows_host_re (readlines text))].
Proof.
  intros Hfs Hlines Hv Hafter.
  assert (Hc : centre_after (readlines text) None = Some v).
  { rewrite Hlines, centre_after_app, centre_after_cons, Hv.
    now apply centre_after_none. }
  rewrite parsers_windows_arp_eq, netgrapher_windows_arp_eq.
  unfold open_readlines, windows_arp_answer. rewrite Hfs. cbn [bind].
  rewrite first_contradiction_no_hint, Hc. split; reflexivity.
Qed.

Lemma parse_windows_arp_last_interface_witness :
  let fs := single_file "arp2.txt" two_interfaces_dump in
  parsers.parse_windows_arp fs "arp2.txt" None
  = Return (Node1 (Some "192.168.0.5"),
            pooled_hosts windows_host_re (readlines two_interfaces_dump)) /\
  netgrapher.parse_windows_arp fs "arp2.txt" None
  = Return [(Node1 (Some "192.168.0.5"),
             pooled_hosts netgrapher.windows_host_re
                          (readlines two_interfaces_dump))].
Proof.
  apply (parse_windows_arp_last_interface
           (single_file "arp2.txt" two_interfaces_dump) "arp2.txt"
           two_interfaces_dump
           [("Interface: 10.137.2.16 --- 0x11" ++ nl)%string;
            ("  10.137.2.1   fe-ff-ff-ff-ff-ff   dynamic" ++ nl)%string]
           [("  192.168.0.1   00-16-3e-5e-6c-06   dynamic" ++ nl)%string]
           ("Interface: 192.168.0.5 --- 0x12" ++ nl)%string
           (Some "192.168.0.5")).
  - reflexivity.
  - vm_compute. reflexivity.
  - vm_compute. reflexivity.
  - intros l [<-|[]]. vm_compute. reflexivity.
Defined.

Example two_interfaces_pooled :
  pooled_hosts windows_host_re (readlines two_interfaces_dump)
  = [mkNode (Some "10.137.2.1") (Some "fe-ff-ff-ff-ff-ff");
     mkNode (Some "192.168.0.1") (Some "00-16-3e-5e-6c-06")].
Proof. vm_compute. reflexivity. Qed.

(** X4.  What parsers.py returns for a Windows ARP dump is well formed: the
    centre has an IP and no MAC, and every node has an IP and a MAC of 17
    characters. *)
Theorem parse_windows_arp_nodes
        (fs : filesystem) (dumpfile : string) (ip : option string)
        (centre : Node) (nodes : list Node) :
  parsers.parse_windows_arp fs dumpfile ip = Return (centre, nodes) ->
  (exists c, centre = mkNode (Some c) None) /\
  (forall nd, In nd nodes ->
              exists a b, nd = mkNode (Some a) (Some b) /\
                          String.length b = 17).
Proof.
  intros H.
  destruct (parsers_windows_arp_returns _ _ _ _ _ H)
    as (text & c & Hfs & Ha & ->).
  destruct (answer_returns _ _ _ _ _ Ha) as (_ & Hc & ->).
  split.
  - destruct (centre_after_origin _ _ _ Hc) as [[=]|(l & _ & Hv)].
    destruct (interface_ip_str _ _ Hv) as [s ->]. now exists s.
  - intros nd Hnd.
    destruct (pooled_hosts_in _ _ _ Hnd) as (line & _ & _ & Hl).
    exact (windows_host_nodes _ _ Hl).
Qed.

Lemma parse_windows_arp_nodes_witness :
  (exists c, Node1 (Some "10.137.2.16") = mkNode (Some c) None) /\
  (forall nd, In nd [mkNode (Some "10.137.2.1") (Some "fe-ff-ff-ff-ff-ff")] ->
              exists a b, nd = mkNode (Some a) (Some b) /\
                          String.length b = 17).
Proof.
  apply (parse_windows_arp_nodes
           (single_file "arp.txt" arp_dump) "arp.txt" None
           (Node1 (Some "10.137.2.16"))
           [mkNode (Some "10.137.2.1") (Some "fe-ff-ff-ff-ff-ff")]).
  vm_compute. reflexivity.
Defined.

(** X5.  The copy in netgrapher.py never returns a whole MAC: every node it
    returns has a MAC of 16 characters, one short of the 17 of a MAC
    written as six pairs. *)
Theorem netgrapher_parse_windows_arp_cuts_mac
        (fs : filesystem) (dumpfile : string) (ip : option string)
        (d : list (Node * list Node)) :
  netgrapher.parse_windows_arp fs dumpfile ip = Return d ->
  exists c nodes,
    d = [(mkNode (Some c) None, nodes)] /\
    (forall nd, In nd nodes ->
                exists a b, nd = mkNode (Some a) (Some b) /\
                            String.length b = 16).
Proof.
  intros H.
  destruct (netgrapher_windows_arp_returns _ _ _ _ H)
    as (text & c & nodes & Hfs & Ha & ->).
  destruct (answer_returns _ _ _ _ _ Ha) as (_ & Hc & ->).
  destruct (centre_after_origin _ _ _ Hc) as [[=]|(l & _ & Hv)].
  destruct (interface_ip_str _ _ Hv) as [s ->].
  exists s, (pooled_hosts netgrapher.windows_host_re (readlines text)).
  split; [reflexivity|].
  intros nd Hnd.
  destruct (pooled_hosts_in _ _ _ Hnd) as (line & _ & _ & Hl).
  exact (netgrapher_host_nodes _ _ Hl).
Qed.

Lemma netgrapher_parse_windows_arp_cuts_mac_witness :
  exists c nodes,
    [(Node1 (Some "10.137.2.16"),
      [mkNode (Some "10.137.2.1") (Some "fe-ff-ff-ff-ff-f")])]
    = [(mkNode (Some c) None, nodes)] /\
    (forall nd, In nd nodes ->
                exists a b, nd = mkNode (Some a) (Some b) /\
                            String.length b = 16).
Proof.
  apply (netgrapher_parse_windows_arp_cuts_mac
           (single_file "arp.txt" arp_dump) "arp.txt" None
           [(Node1 (Some "10.137.2.16"),
             [mkNode (Some "10.137.2.1") (Some "fe-ff-ff-ff-ff-f")])]).
  vm_compute. reflexivity.
Defined.

(* ------------------------------------------------------------------ *)
(** ** The lines that give a hop *)

Lemma append_assoc (a b c : string) : ((a ++ b) ++ c = a ++ b ++ c)%string.
Proof. induction a as [|x a IH]; cbn [append]; [reflexivity|now rewrite IH]. Qed.

Lemma all_chars_app p (a b : string) :
  all_chars p (a ++ b) = all_chars p a && all_chars p b.
Proof.
  induction a as [|x a IH]; cbn [append all_chars]; [reflexivity|].
  now rewrite IH, andb_assoc.
Qed.

(** Every text splits into its longest head in [cs] and the rest. *)
Lemma span (cs : list re.cset) (s : string) :
  exists a rest, s = (a ++ rest)%string /\
                 all_chars (re.in_set cs) a = true /\ stops cs rest = true.
Proof.
  induction s as [|x s (a & rest & -> & Ha & Hr)].
  - exists EmptyString, EmptyString. auto.
  - destruct (re.in_set cs x) eqn:E.
    + exists (String x a), rest. cbn [append all_chars]. rewrite E. auto.
    + exists EmptyString, (String x (a ++ rest)). cbn [append all_chars stops].
      rewrite E. auto.
Qed.

(** There is one such split. *)
Lemma span_unique (cs : list re.cset) (a : string) :
  forall a' b b',
    all_chars (re.in_set cs) a = true -> all_chars (re.in_set cs) a' = true ->
    stops cs b = true -> stops cs b' = true ->
    (a ++ b = a' ++ b')%string ->
    a = a' /\ b = b'.
Proof.
  induction a as [|x a IH]; intros a' b b' Ha Ha' Hb Hb' Heq.
  - destruct a' as [|y a']; cbn [append] in Heq; [auto|].
    subst b. cbn [stops all_chars] in *.
    apply andb_true_iff in Ha' as [Hy _]. rewrite Hy in Hb. discriminate.
  - destruct a' as [|y a']; cbn [append] in Heq.
    + subst b'. cbn [stops all_chars] in *.
      apply andb_true_iff in Ha as [Hx _]. rewrite Hx in Hb'. discriminate.
    + injection Heq as -> Heq. cbn [all_chars] in *.
      apply andb_true_iff in Ha as [_ Ha].
      apply andb_true_iff in Ha' as [_ Ha'].
      destruct (IH _ _ _ Ha Ha' Hb Hb' Heq) as [-> ->]. auto.
Qed.

Section GreedySound.

Variable cs : list re.cset.
Variable total : nat.
Variable k : re.kont.

Lemma more_set_sound :
  forall fuel s c res,
    re.more (re.run (re.RSet cs) total) k fuel s c = Some res ->
    exists a rest, s = (a ++ rest)%string /\
                   all_chars (re.in_set cs) a = true /\
                   k rest c = Some res.
Proof.
  induction fuel as [|fuel IH]; intros s c res H.
  - exists EmptyString, s. auto.
  - cbn [re.more] in H. destruct s as [|x s].
    + exists EmptyString, EmptyString. auto.
    + rewrite run_set_cons in H. destruct (re.in_set cs x) eqn:E.
      * cbn [String.length] in H. unfold Nat.ltb in H. cbn [Nat.leb] in H.
        rewrite Nat.leb_refl in H.
        destruct (re.more (re.run (re.RSet cs) total) k fuel s c)
          as [res0|] eqn:Em.
        -- injection H as ->.
           destruct (IH _ _ _ Em) as (a & rest & -> & Ha & Hk).
           exists (String x a), rest. cbn [append all_chars]. rewrite E. auto.
        -- exists EmptyString, (String x s). auto.
      * exists EmptyString, (String x s). auto.
Qed.

(** A success of [cs+] has taken a non-empty run of [cs] and left the
    captures as they were. *)
Lemma run_plus_set_sound s c res :
  re.run (re.RPlus (re.RSet cs)) total s c k = Some res ->
  exists a rest, s = (a ++ rest)%string /\ run_of cs a /\ k rest c = Some res.
Proof.
  intros H. cbn [re.run] in H. destruct s as [|x s]; [discriminate|].
  destruct (re.in_set cs x) eqn:E; [|discriminate].
  destruct (more_set_sound _ _ _ _ H) as (a & rest & -> & Ha & Hk).
  exists (String x a), rest. repeat split; auto.
  - discriminate.
  - cbn [all_chars]. now rewrite E.
Qed.

End GreedySound.

(** A line that [hop_re] matches is made of blanks, a number, blanks and a
    token, in this order, and then anything. *)
Lemma hop_re_sound line m :
  re.match_ hop_re line = Some m ->
  exists sp1 num sp2 tok rest,
    line = (sp1 ++ num ++ sp2 ++ tok ++ rest)%string /\
    run_of space_set sp1 /\ run_of digit_set num /\
    run_of space_set sp2 /\ run_of token_set tok.
Proof.
  unfold re.match_. rewrite hop_re_compiled.
  destruct (re.run _ (String.length line) line [] _) as [res|] eqn:E;
    [|discriminate].
  intros _. rewrite run_seq in E.
  destruct (run_plus_set_sound _ _ _ _ _ _ E) as (sp1 & r1 & -> & H1 & E1).
  cbv beta in E1. rewrite run_seq in E1.
  destruct (run_plus_set_sound _ _ _ _ _ _ E1) as (num & r2 & -> & Hn & E2).
  cbv beta in E2. rewrite run_seq in E2.
  destruct (run_plus_set_sound _ _ _ _ _ _ E2) as (sp2 & r3 & -> & H2 & E3).
  cbv beta in E3. rewrite run_group in E3.
  destruct (run_plus_set_sound _ _ _ _ _ _ E3) as (tok & rest & -> & Ht & _).
  exists sp1, num, sp2, tok, rest. auto.
Qed.

(** X6.  The lines that give a hop, and the hop they give: [hop_re] matches a
    line exactly when the line is made of blanks, the hop number, blanks
    and an address token that goes on as far as letters, digits, [_] and
    [.] go; the one group is this token, whatever follows it. *)
Theorem hop_re_match_iff (line : string) (m : re.match_object) :
  re.match_ hop_re line = Some m <->
  exists sp1 num sp2 tok rest,
    line = (sp1 ++ num ++ sp2 ++ tok ++ rest)%string /\
    run_of space_set sp1 /\ run_of digit_set num /\
    run_of space_set sp2 /\ run_of token_set tok /\
    stops token_set rest = true /\
    m = re.mkMatch [Some tok].
Proof.
  split.
  - intros Hm.
    destruct (hop_re_sound _ _ Hm)
      as (sp1 & num & sp2 & tok & rest & Hline & H1 & Hn & H2 & Ht).
    destruct (span token_set rest) as (t2 & rest2 & -> & Ht2 & Hstop).
    assert (Htok : run_of token_set (tok ++ t2)).
    { destruct Ht as [Hne Hall]. split.
      - destruct tok; [congruence|discriminate].
      - now rewrite all_chars_app, Hall, Ht2. }
    replace (tok ++ t2 ++ rest2)%string with ((tok ++ t2) ++ rest2)%string
      in Hline by apply append_assoc.
    exists sp1, num, sp2, (tok ++ t2)%string, rest2.
    repeat split; try apply H1; try apply Hn; try apply H2; try apply Htok;
      auto.
    rewrite Hline in Hm.
    rewrite (hop_re_first_token _ _ _ _ _ H1 Hn H2 Htok Hstop) in Hm.
    now injection Hm.
  - intros (sp1 & num & sp2 & tok & rest & -> & H1 & Hn & H2 & Ht & Hs & ->).
    now apply hop_re_first_token.
Qed.

(** X7.  A line that does not start with a blank gives no hop: so the header
    line of a traceroute dump, and every line flush to the margin. *)
Theorem hop_line_needs_blank (line : string) :
  stops space_set line = true -> hop_of_line line = [].
Proof.
  intros Hs. unfold hop_of_line.
  destruct (re.match_ hop_re line) as [m|] eqn:E; [|reflexivity].
  destruct (hop_re_sound _ _ E)
    as (sp1 & num & sp2 & tok & rest & -> & [Hne Hall] & _).
  destruct sp1 as [|x sp1]; [congruence|].
  cbn [append stops all_chars] in *.
  apply andb_true_iff in Hall as [Hx _]. rewrite Hx in Hs. discriminate.
Qed.

Lemma hop_line_needs_blank_witness :
  hop_of_line
    "traceroute to example.com (93.184.216.34), 30 hops max, 60 byte packets"
  = [].
Proof.
  apply (hop_line_needs_blank
           "traceroute to example.com (93.184.216.34), 30 hops max, 60 byte packets").
  reflexivity.
Defined.

(** X8.  A hop line whose number is followed by something that is no address
    token (the stars of a hop that did not answer) gives no hop: the hop
    is left out of the sequence. *)
Theorem hop_line_without_token (sp1 num sp2 rest : string) :
  run_of space_set sp1 ->
  run_of digit_set num ->
  run_of space_set sp2 ->
  stops space_set rest = true ->
  stops token_set rest = true ->
  hop_of_line (sp1 ++ num ++ sp2 ++ rest) = [].
Proof.
  intros H1 Hn H2 Hrs Hrt. unfold hop_of_line.
  destruct (re.match_ hop_re _) as [m|] eqn:E; [|reflexivity].
  destruct (hop_re_sound _ _ E)
    as (sp1' & num' & sp2' & tok & rest' & Heq & H1' & Hn' & H2' & Ht).
  destruct (span_unique space_set sp1 sp1' _ _
              (proj2 H1) (proj2 H1')
              (stops_run_of _ _ _ _ digit_not_space Hn)
              (stops_run_of _ _ _ _ digit_not_space Hn') Heq) as [_ Heq1].
  destruct (span_unique digit_set num num' _ _
              (proj2 Hn) (proj2 Hn')
              (stops_run_of _ _ _ _ space_not_digit H2)
              (stops_run_of _ _ _ _ space_not_digit H2') Heq1) as [_ Heq2].
  destruct (span_unique space_set sp2 sp2' _ _
              (proj2 H2) (proj2 H2') Hrs
              (stops_run_of _ _ _ _ token_not_space Ht) Heq2) as [_ ->].
  destruct Ht as [Hne Hall]. destruct tok as [|x tok]; [congruence|].
  cbn [append stops all_chars] in *.
  apply andb_true_iff in Hall as [Hx _]. rewrite Hx in Hrt. discriminate.
Qed.

Lemma hop_line_without_token_witness :
  hop_of_line (" " ++ "3" ++ "  " ++ "* * *") = [].
Proof.
  apply (hop_line_without_token " " "3" "  " "* * *");
    try (split; [discriminate|reflexivity]); reflexivity.
Defined.

(** X9.  [parse_linux_tr] as a function of the lines: without a centre IP it
    raises [MyException] before it reads; with one, an unreadable file
    raises [IOError], and a readable one gives the centre followed by the
    hops of the lines, in the order of the file. *)
Theorem parse_linux_tr_answer
        (fs : filesystem) (dumpfile : string) (ip : option string) :
  parsers.parse_linux_tr fs dumpfile ip
  = match ip with
    | None => Raise (MyException parsers.no_centre_tr)
    | Some centre =>
        lines <- open_readlines fs dumpfile ;;
        Return (Node1 (Some centre) :: flat_map hop_of_line lines)
    end.
Proof.
  unfold parsers.parse_linux_tr. destruct ip as [centre|]; [|reflexivity].
  destruct (open_readlines fs dumpfile) as [lines|e]; [|reflexivity].
  cbn [bind app]. now rewrite parse_linux_tr_loop_hops.
Qed.

Lemma flat_map_length_le {A B : Type} (f : A -> list B) (l : list A) :
  (forall x, List.length (f x) <= 1) ->
  List.length (flat_map f l) <= List.length l.
Proof.
  intros Hf. induction l as [|x l IH]; cbn [flat_map List.length]; [lia|].
  rewrite length_app. specialize (Hf x). lia.
Qed.

(** X10.  What [parse_linux_tr] returns is well formed: the first node is the
    centre that was supplied; every further node has no MAC and, as IP, a
    non-empty token of letters, digits, [_] and [.]; and there are no more
    hops than the file has lines. *)
Theorem parse_linux_tr_nodes
        (fs : filesystem) (dumpfile : string) (ip : option string)
        (hops : list Node) :
  parsers.parse_linux_tr fs dumpfile ip = Return hops ->
  exists centre later text,
    ip = Some centre /\
    fs dumpfile = Some text /\
    hops = Node1 (Some centre) :: later /\
    (forall h, In h later ->
               exists tok, h = mkNode (Some tok) None /\
                           run_of token_set tok) /\
    List.length later <= List.length (readlines text).
Proof.
  unfold parsers.parse_linux_tr, open_readlines.
  destruct ip as [centre|]; [|discriminate].
  destruct (fs dumpfile) as [text|]; [|discriminate].
  cbn [bind app]. rewrite parse_linux_tr_loop_hops. cbn [app].
  intros [= <-].
  exists centre, (flat_map hop_of_line (readlines text)), text.
  repeat split; auto.
  - intros h Hh. apply in_flat_map in Hh as (line & _ & Hh).
    unfold hop_of_line in Hh.
    destruct (re.match_ hop_re line) as [m|] eqn:E; [|destruct Hh].
    destruct Hh as [<-|[]].
    destruct (hop_re_sound _ _ E)
      as (sp1 & num & sp2 & tok & rest & Hline & H1 & Hn & H2 & Ht).
    destruct (span token_set rest) as (t2 & rest2 & -> & Ht2 & Hstop).
    assert (Htok : run_of token_set (tok ++ t2)).
    { destruct Ht as [Hne Hall]. split.
      - destruct tok; [congruence|discriminate].
      - now rewrite all_chars_app, Hall, Ht2. }
    replace (tok ++ t2 ++ rest2)%string with ((tok ++ t2) ++ rest2)%string
      in Hline by apply append_assoc.
    rewrite Hline in E.
    rewrite (hop_re_first_token _ _ _ _ _ H1 Hn H2 Htok Hstop) in E.
    injection E as <-. exists (tok ++ t2)%string. split; [reflexivity|apply Htok].
  - apply flat_map_length_le. intros line. unfold hop_of_line.
    destruct (re.match_ hop_re line); cbn; lia.
Qed.

Lemma parse_linux_tr_nodes_witness :
  exists centre later text,
    Some "10.0.0.1" = Some centre /\
    single_file "tr.txt" tr_dump "tr.txt" = Some text /\
    [Node1 (Some "10.0.0.1"); Node1 (Some "10.137.4.1")]
    = Node1 (Some centre) :: later /\
    (forall h, In h later ->
               exists tok, h = mkNode (Some tok) None /\
                           run_of token_set tok) /\
    List.length later <= List.length (readlines text).
Proof.
  apply (parse_linux_tr_nodes (single_file "tr.txt" tr_dump) "tr.txt"
           (Some "10.0.0.1")
           [Node1 (Some "10.0.0.1"); Node1 (Some "10.137.4.1")]).
  vm_compute. reflexivity.
Defined.

(* ------------------------------------------------------------------ *)
(** ** The Linux ARP extractor *)

Lemma parse_linux_arp_loop_nodes lines nodes :
  parsers.parse_linux_arp_loop lines nodes
  = nodes ++ flat_map (host_nodes linux_host_re) lines.
Proof.
  revert nodes. induction lines as [|line rest IH]; intros nodes;
    cbn [parsers.parse_linux_arp_loop flat_map].
  - now rewrite app_nil_r.
  - unfold host_nodes at 1.
    destruct (re.match_ linux_host_re line) as [m|];
      [destruct (Nat.leb 2 (List.length (re.groups m)))|];
      rewrite IH; cbn [app]; now rewrite <- ?app_assoc.
Qed.

(** X11.  [parse_linux_arp] as a function of the lines.  The file is read
    before the centre IP is looked at: an unreadable file raises [IOError]
    with or without an IP, and a readable one without an IP raises
    [MyException] whatever it holds.  With an IP the centre is that IP,
    which nothing in the file can contradict, and the nodes are those of
    the host lines in the order of the file. *)
Theorem parse_linux_arp_answer
        (fs : filesystem) (dumpfile : string) (ip : option string) :
  parsers.parse_linux_arp fs dumpfile ip
  = match fs dumpfile, ip with
    | None, _ => Raise (IOError dumpfile)
    | Some _, None => Raise (MyException parsers.no_centre_arp)
    | Some text, Some centre =>
        Return (Node1 (Some centre),
                flat_map (host_nodes linux_host_re) (readlines text))
    end.
Proof.
  unfold parsers.parse_linux_arp, open_readlines.
  destruct (fs dumpfile) as [text|]; [|reflexivity]. cbn [bind].
  destruct ip as [centre|]; [|reflexivity].
  now rewrite parse_linux_arp_loop_nodes.
Qed.

(** X12.  Every node that [parse_linux_arp] returns beside the centre has an IP
    and a MAC of 17 characters. *)
Theorem parse_linux_arp_nodes
        (fs : filesystem) (dumpfile : string) (ip : option string)
        (centre : Node) (nodes : list Node) :
  parsers.parse_linux_arp fs dumpfile ip = Return (centre, nodes) ->
  (exists c, ip = Some c /\ centre = mkNode (Some c) None) /\
  (forall nd, In nd nodes ->
              exists a b, nd = mkNode (Some a) (Some b) /\
                          String.length b = 17).
Proof.
  unfold parsers.parse_linux_arp, open_readlines.
  destruct (fs dumpfile) as [text|]; [|discriminate]. cbn [bind].
  destruct ip as [c|]; [|discriminate].
  rewrite parse_linux_arp_loop_nodes. cbn [app]. intros [= <- <-].
  split; [now exists c|].
  intros nd Hnd. apply in_flat_map in Hnd as (line & _ & Hnd).
  exact (linux_host_nodes _ _ Hnd).
Qed.

Lemma parse_linux_arp_nodes_witness :
  (exists c, Some "10.137.1.1" = Some c /\
             Node1 (Some "10.137.1.1") = mkNode (Some c) None) /\
  (forall nd, In nd [mkNode (Some "10.137.1.8") (Some "00:16:3e:5e:6c:06")] ->
              exists a b, nd = mkNode (Some a) (Some b) /\
                          String.length b = 17).
Proof.
  apply (parse_linux_arp_nodes
           (single_file "arp.txt" linux_arp_dump) "arp.txt" (Some "10.137.1.1")
           (Node1 (Some "10.137.1.1"))
           [mkNode (Some "10.137.1.8") (Some "00:16:3e:5e:6c:06")]).
  vm_compute. reflexivity.
Defined.

(* ------------------------------------------------------------------ *)
(** ** The classifier and the supported types and systems *)

Lemma try_signatures_in table line d :
  parsers.try_signatures table line = Some d -> In d (map fst table).
Proof.
  induction table as [|[d' p] table IH]; cbn [parsers.try_signatures map];
    [discriminate|].
  destruct (re.match_ p line).
  - intros [= <-]. now left.
  - intros H. right. auto.
Qed.

Lemma guess_lines_in lines :
  parsers.guess_lines lines = (None, None) \/
  exists t o, parsers.guess_lines lines = (Some t, Some o) /\
              In (t, o) (map fst parsers.guess_data).
Proof.
  induction lines as [|line rest IH]; cbn [parsers.guess_lines]; [now left|].
  destruct (parsers.try_signatures parsers.guess_data line) as [[t o]|] eqn:E.
  - right. exists t, o. split; [reflexivity|].
    exact (try_signatures_in _ _ _ E).
  - exact IH.
Qed.

(** X13.  The classifier answers with both a type and a system or with neither,
    and what it answers is among the types and the systems that the
    command line accepts ([SUPPORTED_DUMPFILES], [SUPPORTED_OS]); it raises
    only for a file that cannot be read. *)
Theorem guess_dumpfile_type_and_os_supported
        (fs : filesystem) (dumpfile : string) :
  (fs dumpfile = None /\
   parsers.guess_dumpfile_type_and_os fs dumpfile = Raise (IOError dumpfile))
  \/ parsers.guess_dumpfile_type_and_os fs dumpfile = Return (None, None)
  \/ exists t o,
       parsers.guess_dumpfile_type_and_os fs dumpfile
       = Return (Some t, Some o) /\
       In t parsers.SUPPORTED_DUMPFILES /\
       In o parsers.SUPPORTED_OS.
Proof.
  unfold parsers.guess_dumpfile_type_and_os, open_readlines.
  destruct (fs dumpfile) as [text|]; [|left; auto]. cbn [bind]. right.
  destruct (guess_lines_in (readlines text)) as [->|(t & o & -> & Hin)];
    [now left|right].
  exists t, o. split; [reflexivity|].
  unfold parsers.SUPPORTED_DUMPFILES, parsers.SUPPORTED_OS.
  rewrite !nodup_In. apply in_map_iff in Hin as ([[t' o'] p] & [= -> ->] & Hin).
  split; apply in_map_iff; exists ((t, o), p); auto.
Qed.

Example SUPPORTED_values :
  parsers.SUPPORTED_DUMPFILES = ["arp"; "traceroute"; "route"] /\
  parsers.SUPPORTED_OS = ["openbsd"; "linux"; "windows"].
Proof. split; vm_compute; reflexivity. Qed.

(* ------------------------------------------------------------------ *)
(** ** The outcomes of [grow_graph] *)

(** X14.  [grow_graph] returns in one case only: the type resolves to arp, the
    OS to windows, the file can be read, some line carries an interface
    marker and no marker contradicts the IP supplied. *)
Theorem grow_graph_returns_iff
        (fs : filesystem) (dumpfile : string)
        (dumpfile_os dumpfile_type ip : option string) (G : Graph) :
  fst (netgrapher.grow_graph fs dumpfile dumpfile_os dumpfile_type ip G)
  = Return tt
  <-> (netgrapher.resolve_type dumpfile dumpfile_type = "arp" /\
       netgrapher.resolve_os dumpfile dumpfile_os = "windows" /\
       exists text,
         fs dumpfile = Some text /\
         first_contradiction ip (readlines text) = None /\
         centre_after (readlines text) None <> None).
Proof.
  unfold netgrapher.grow_graph, netgrapher.py_in.
  generalize (netgrapher.resolve_type dumpfile dumpfile_type) as t.
  generalize (netgrapher.resolve_os dumpfile dumpfile_os) as o.
  intros o t. cbn [existsb netgrapher.SUPPORTED_DUMPFILES netgrapher.SUPPORTED_OS].
  destruct (String.eqb_spec t "arp") as [Ea|Ha]; cbn [orb negb].
  - destruct (String.eqb_spec o "windows") as [Eo|Ho]; cbn [orb negb].
    + unfold netgrapher.augment_from_arp. rewrite (proj2 (String.eqb_eq _ _) Eo).
      unfold netgrapher.pbind, netgrapher.lift, netgrapher.ret.
      rewrite netgrapher_windows_arp_eq.
      unfold open_readlines, windows_arp_answer.
      destruct (fs dumpfile) as [text|]; cbn [bind].
      * destruct (first_contradiction ip (readlines text)) eqn:Efc; cbn [bind].
        -- split; [discriminate|].
           intros (_ & _ & text' & [= <-] & Hfc & _). congruence.
        -- destruct (centre_after (readlines text) None) eqn:Ec; cbn [bind fst].
           ++ split; [|reflexivity]. intros _. repeat split; auto.
              exists text. repeat split; auto. congruence.
           ++ split; [discriminate|].
              intros (_ & _ & text' & [= <-] & _ & Hc). congruence.
      * split; [discriminate|]. intros (_ & _ & text' & [=] & _).
    + split; [discriminate|]. intros (_ & Eo & _). contradiction.
  - split; [|intros (Ea & _); contradiction].
    destruct (String.eqb_spec t "route"); cbn [orb negb].
    + destruct (String.eqb_spec o "windows"); cbn [orb negb]; discriminate.
    + destruct (String.eqb_spec t "traceroute"); cbn [orb negb];
        [destruct (String.eqb_spec o "windows"); cbn [orb negb]|];
        discriminate.
Qed.

(** X15.  Two [raise] statements are never reached from [grow_graph]: the last
    [else] of its dispatch, and the branch of [augment_from_arp] for
    another OS than windows. *)
Theorem grow_graph_dead_raises
        (fs : filesystem) (dumpfile : string)
        (dumpfile_os dumpfile_type ip : option string) (G : Graph) :
  let outcome :=
    fst (netgrapher.grow_graph fs dumpfile dumpfile_os dumpfile_type ip G) in
  outcome <> Raise (NotImplementedError "This dumpfile is not supported.") /\
  outcome <> Raise (NotImplementedError "Sorry dude").
Proof.
  cbv zeta. unfold netgrapher.grow_graph, netgrapher.py_in.
  generalize (netgrapher.resolve_type dumpfile dumpfile_type) as t.
  generalize (netgrapher.resolve_os dumpfile dumpfile_os) as o.
  intros o t. cbn [existsb netgrapher.SUPPORTED_DUMPFILES netgrapher.SUPPORTED_OS].
  destruct (String.eqb_spec t "arp") as [Ea|Ha]; cbn [orb negb].
  - destruct (String.eqb_spec o "windows") as [Eo|Ho]; cbn [orb negb];
      [|split; discriminate].
    unfold netgrapher.augment_from_arp. rewrite (proj2 (String.eqb_eq _ _) Eo).
    unfold netgrapher.pbind, netgrapher.lift, netgrapher.ret.
    rewrite netgrapher_windows_arp_eq.
    unfold open_readlines, windows_arp_answer.
    destruct (fs dumpfile) as [text|]; cbn [bind]; [|split; discriminate].
    destruct (first_contradiction ip (readlines text)); cbn [bind];
      [split; discriminate|].
    destruct (centre_after (readlines text) None); cbn [bind fst];
      split; discriminate.
  - destruct (String.eqb_spec t "route"); cbn [orb negb].
    + destruct (String.eqb_spec o "windows"); cbn [orb negb];
        split; discriminate.
    + destruct (String.eqb_spec t "traceroute"); cbn [orb negb];
        [destruct (String.eqb_spec o "windows"); cbn [orb negb]|];
        split; discriminate.
Qed.

(* ------------------------------------------------------------------ *)
(** ** Loading and saving the graph (__main__.py) *)

Section Persistence.

Import main.

Variable lib : library.

Lemma backup_differs (savefile : string) :
  (backup_of savefile =? savefile) = false /\
  (savefile =? backup_of savefile) = false.
Proof.
  assert (H : backup_of savefile <> savefile).
  { intros H. apply (f_equal String.length) in H.
    unfold backup_of in H. rewrite length_append in H.
    cbn [String.length] in H. lia. }
  split; apply String.eqb_neq; congruence.
Qed.

Lemma writer_of_known (file_format : string) :
  writer_of lib file_format = None <->
  (file_format <> "GEXF" /\ file_format <> "DOT" /\
   file_format <> "JSON" /\ file_format <> "GRAPHML").
Proof.
  unfold writer_of.
  destruct (String.eqb_spec file_format "GEXF");
    [split; [discriminate|intros (? & _); contradiction]|].
  destruct (String.eqb_spec file_format "DOT");
    [split; [discriminate|intros (_ & ? & _); contradiction]|].
  destruct (String.eqb_spec file_format "JSON");
    [split; [discriminate|intros (_ & _ & ? & _); contradiction]|].
  destruct (String.eqb_spec file_format "GRAPHML");
    [split; [discriminate|intros (_ & _ & _ & ?); contradiction]|].
  split; auto.
Qed.

(** What [save_graph] leaves in the file system, by the writer it calls. *)
Lemma save_graph_fs (graph : Graph) (savefile file_format : string)
      (fs : filesystem) :
  snd (save_graph lib graph savefile file_format fs)
  = let fs1 := match fs savefile with
               | Some old => fs_write fs (backup_of savefile) (Some old)
               | None => fs
               end in
    match writer_of lib file_format with
    | Some write => fs_write fs1 savefile (fst (write graph (fs1 savefile)))
    | None => fs1
    end.
Proof.
  unfold save_graph. cbv zeta.
  destruct (writer_of lib file_format) as [write|]; [|reflexivity].
  destruct (write graph _) as [after [e|]]; reflexivity.
Qed.

(** X16.  A file that is there before [save_graph] is kept as the backup,
    whatever the format and whatever becomes of the writing. *)
Theorem save_graph_backup (graph : Graph) (savefile file_format : string)
        (fs : filesystem) (old : string) :
  fs savefile = Some old ->
  snd (save_graph lib graph savefile file_format fs) (backup_of savefile)
  = Some old.
Proof.
  intros H. rewrite save_graph_fs. cbv zeta. rewrite H.
  destruct (backup_differs savefile) as [Hb _].
  destruct (writer_of lib file_format) as [write|]; unfold fs_write;
    rewrite ?Hb, String.eqb_refl; reflexivity.
Qed.

(** X17.  [save_graph] touches the file and its backup and no other path; and
    without a file to begin with it makes no backup. *)
Theorem save_graph_frame (graph : Graph) (savefile file_format : string)
        (fs : filesystem) (path : string) :
  path <> savefile ->
  path <> backup_of savefile \/ fs savefile = None ->
  snd (save_graph lib graph savefile file_format fs) path = fs path.
Proof.
  intros Hs Hb. rewrite save_graph_fs. cbv zeta.
  apply String.eqb_neq in Hs.
  assert (H1 : match fs savefile with
               | Some old => fs_write fs (backup_of savefile) (Some old)
               | None => fs
               end path = fs path).
  { destruct (fs savefile) as [old|]; [|reflexivity].
    destruct Hb as [Hb|Hb]; [|discriminate].
    apply String.eqb_neq in Hb. unfold fs_write. now rewrite Hb. }
  destruct (writer_of lib file_format) as [write|]; [|exact H1].
  unfold fs_write at 1. rewrite Hs. exact H1.
Qed.

(** X18.  With a format outside the four, [save_graph] returns as if all were
    well and has written nothing: the file is as it was. *)
Theorem save_graph_unknown_format (graph : Graph)
        (savefile file_format : string) (fs : filesystem) :
  file_format <> "GEXF" -> file_format <> "DOT" ->
  file_format <> "JSON" -> file_format <> "GRAPHML" ->
  fst (save_graph lib graph savefile file_format fs) = Done tt /\
  snd (save_graph lib graph savefile file_format fs) savefile = fs savefile.
Proof.
  intros H1 H2 H3 H4.
  assert (Hw : writer_of lib file_format = None)
    by (apply writer_of_known; auto).
  unfold save_graph. cbv zeta. rewrite Hw. cbn [fst snd]. split; [reflexivity|].
  destruct (fs savefile) as [old|] eqn:E; [|exact E].
  unfold fs_write. destruct (backup_differs savefile) as [_ Hb].
  now rewrite Hb.
Qed.

Lemma load_graph_reads (fs : filesystem) (path file_format content : string)
      (read : string -> lib_result Graph) (g : Graph) :
  fs path = Some content ->
  reader_of lib file_format = Some read ->
  read content = LibOk g ->
  (file_format = "DOT" -> pygraphviz lib = true) ->
  load_graph lib fs (Some path) file_format = Done g.
Proof.
  intros Hfs Hr Hread Hdot. unfold load_graph. rewrite Hfs.
  unfold reader_of in Hr.
  destruct (String.eqb_spec file_format "GEXF");
    [injection Hr as <-; now rewrite Hread|].
  destruct (String.eqb_spec file_format "DOT");
    [injection Hr as <-; rewrite (Hdot e); now rewrite Hread|].
  destruct (String.eqb_spec file_format "JSON");
    [injection Hr as <-; now rewrite Hread|].
  destruct (String.eqb_spec file_format "GRAPHML");
    [injection Hr as <-; now rewrite Hread|].
  discriminate.
Qed.

(** X19.  Saving and loading again: when the writer of the format writes a text
    without raising and the reader of the format reads that text as a
    graph, [load_graph] after [save_graph] returns that graph. *)
Theorem save_then_load (graph loaded : Graph) (savefile file_format : string)
        (fs : filesystem)
        (write : Graph -> option string -> option string * option lib_exn)
        (read : string -> lib_result Graph) (content : string) :
  writer_of lib file_format = Some write ->
  reader_of lib file_format = Some read ->
  write graph (fs savefile) = (Some content, None) ->
  read content = LibOk loaded ->
  (file_format = "DOT" -> pygraphviz lib = true) ->
  fst (save_graph lib graph savefile file_format fs) = Done tt /\
  load_graph lib (snd (save_graph lib graph savefile file_format fs))
             (Some savefile) file_format
  = Done loaded.
Proof.
  intros Hw Hr Hwrite Hread Hdot.
  assert (Hsame : match fs savefile with
                  | Some old => fs_write fs (backup_of savefile) (Some old)
                  | None => fs
                  end savefile = fs savefile).
  { destruct (fs savefile) as [old|] eqn:E; [|exact E].
    unfold fs_write. destruct (backup_differs savefile) as [_ Hb].
    now rewrite Hb. }
  split.
  - unfold save_graph. cbv zeta. rewrite Hw, Hsame, Hwrite. reflexivity.
  - apply (load_graph_reads _ _ _ content read); auto.
    rewrite save_graph_fs. cbv zeta. rewrite Hw, Hsame, Hwrite.
    unfold fs_write at 1. now rewrite String.eqb_refl.
Qed.

(** X20.  Saving twice: the backup then holds what the first saving wrote. *)
Theorem save_twice_backup (g1 g2 : Graph) (savefile file_format : string)
        (fs : filesystem)
        (write : Graph -> option string -> option string * option lib_exn)
        (content : string) (raised : option lib_exn) :
  writer_of lib file_format = Some write ->
  write g1 (fs savefile) = (Some content, raised) ->
  snd (save_graph lib g2 savefile file_format
         (snd (save_graph lib g1 savefile file_format fs)))
      (backup_of savefile)
  = Some content.
Proof.
  intros Hw Hwrite.
  assert (Hsame : match fs savefile with
                  | Some old => fs_write fs (backup_of savefile) (Some old)
                  | None => fs
                  end savefile = fs savefile).
  { destruct (fs savefile) as [old|] eqn:E; [|exact E].
    unfold fs_write. destruct (backup_differs savefile) as [_ Hb].
    now rewrite Hb. }
  assert (H1 : snd (save_graph lib g1 savefile file_format fs) savefile
               = Some content).
  { rewrite save_graph_fs. cbv zeta. rewrite Hw, Hsame, Hwrite.
    unfold fs_write at 1. now rewrite String.eqb_refl. }
  rewrite (save_graph_fs g2). cbv zeta. rewrite H1, Hw.
  destruct (backup_differs savefile) as [Hb _].
  unfold fs_write at 1. rewrite Hb.
  unfold fs_write at 1. now rewrite String.eqb_refl.
Qed.

(** X21.  Without a savefile, or with one that is not there, [load_graph]
    returns the empty graph, whatever the format, a format outside the
    four included. *)
Theorem load_graph_fresh (fs : filesystem) (savefile : option string)
        (file_format : string) :
  (forall path, savefile = Some path -> fs path = None) ->
  load_graph lib fs savefile file_format = Done new_graph.
Proof.
  intros H. unfold load_graph. destruct savefile as [path|]; [|reflexivity].
  now rewrite (H path eq_refl).
Qed.

(** X22.  The exceptions of the program that [load_graph] raises: for a file
    that is there, a GEXF text that does not parse, a DOT text on which
    the reader raises [ImportError] or [DotError], and a format outside
    the four.  With JSON and GRAPHML every failure is the exception of the
    library, as it was raised. *)
Theorem load_graph_domain_errors (fs : filesystem) (savefile : option string)
        (file_format : string) (e : exn) :
  load_graph lib fs savefile file_format = Failed (Domain e) ->
  exists path content,
    savefile = Some path /\ fs path = Some content /\
    ((file_format = "GEXF" /\
      exists msg, read_gexf lib content = LibRaise (ParseError msg)) \/
     (file_format = "DOT" /\ pygraphviz lib = true /\
      exists msg, read_dot lib content = LibRaise (ImportError msg) \/
                  read_dot lib content = LibRaise (DotError msg)) \/
     (writer_of lib file_format = None /\
      e = MyException ("Unknown file format " ++ file_format))).
Proof.
  unfold load_graph. destruct savefile as [path|]; [|discriminate].
  destruct (fs path) as [content|] eqn:Hfs; [|discriminate].
  intros H. exists path, content. repeat split; auto.
  unfold writer_of.
  destruct (String.eqb_spec file_format "GEXF").
  { left. split; [assumption|].
    destruct (read_gexf lib content) as [g|[msg|msg|msg|msg]];
      try discriminate. eauto. }
  destruct (String.eqb_spec file_format "DOT").
  { right. left. split; [assumption|].
    destruct (pygraphviz lib); [|discriminate]. split; [reflexivity|].
    destruct (read_dot lib content) as [g|[msg|msg|msg|msg]];
      try discriminate; eauto. }
  destruct (String.eqb_spec file_format "JSON").
  { destruct (read_json lib content); discriminate. }
  destruct (String.eqb_spec file_format "GRAPHML").
  { destruct (read_graphml lib content); discriminate. }
  right. right. split; [reflexivity|]. now injection H as <-.
Qed.

End Persistence.

Lemma save_graph_backup_witness :
  snd (main.save_graph main.toy_library empty_graph "net.json" "JSON"
         (single_file "net.json" "old")) (main.backup_of "net.json")
  = Some "old".
Proof.
  apply (save_graph_backup main.toy_library empty_graph "net.json" "JSON"
           (single_file "net.json" "old") "old").
  reflexivity.
Defined.

Lemma save_graph_frame_witness :
  snd (main.save_graph main.toy_library empty_graph "net.json" "JSON"
         (single_file "dump.txt" arp_dump)) "dump.txt"
  = single_file "dump.txt" arp_dump "dump.txt".
Proof.
  apply (save_graph_frame main.toy_library empty_graph "net.json" "JSON"
           (single_file "dump.txt" arp_dump) "dump.txt").
  - discriminate.
  - left. discriminate.
Defined.

Lemma save_graph_unknown_format_witness :
  let saved := main.save_graph main.toy_library empty_graph "net.yaml" "YAML"
                 (single_file "net.yaml" "old") in
  fst saved = main.Done tt /\
  snd saved "net.yaml" = single_file "net.yaml" "old" "net.yaml".
Proof.
  apply (save_graph_unknown_format main.toy_library empty_graph
           "net.yaml" "YAML" (single_file "net.yaml" "old"));
    discriminate.
Defined.

Lemma save_then_load_witness :
  let saved := main.save_graph main.toy_library empty_graph "net.json" "JSON"
                 (single_file "net.json" "old") in
  fst saved = main.Done tt /\
  main.load_graph main.toy_library (snd saved) (Some "net.json") "JSON"
  = main.Done empty_graph.
Proof.
  apply (save_then_load main.toy_library empty_graph empty_graph
           "net.json" "JSON" (single_file "net.json" "old")
           (main.write_json main.toy_library)
           (main.read_json main.toy_library) "graph");
    reflexivity.
Defined.

Lemma save_twice_backup_witness :
  snd (main.save_graph main.toy_library empty_graph "net.json" "JSON"
         (snd (main.save_graph main.toy_library empty_graph "net.json" "JSON"
                 (single_file "net.json" "old"))))
      (main.backup_of "net.json")
  = Some "graph".
Proof.
  apply (save_twice_backup main.toy_library empty_graph empty_graph
           "net.json" "JSON" (single_file "net.json" "old")
           (main.write_json main.toy_library) "graph" None);
    reflexivity.
Defined.

Lemma load_graph_fresh_witness :
  main.load_graph main.toy_library (single_file "dump.txt" arp_dump)
                  (Some "net.json") "YAML"
  = main.Done main.new_graph.
Proof.
  apply (load_graph_fresh main.toy_library (single_file "dump.txt" arp_dump)
           (Some "net.json") "YAML").
  intros path [= <-]. reflexivity.
Defined.

Lemma load_graph_domain_errors_witness :
  let lib := main.toy_library in
  let fs := single_file "net.yaml" "old" in
  exists path content,
    Some "net.yaml" = Some path /\ fs path = Some content /\
    (("YAML" = "GEXF" /\
      exists msg, main.read_gexf lib content
                  = main.LibRaise (main.ParseError msg)) \/
     ("YAML" = "DOT" /\ main.pygraphviz lib = true /\
      exists msg,
        main.read_dot lib content = main.LibRaise (main.ImportError msg) \/
        main.read_dot lib content = main.LibRaise (main.DotError msg)) \/
     (main.writer_of lib "YAML" = None /\
      MyException "Unknown file format YAML"
      = MyException ("Unknown file format " ++ "YAML"))).
Proof.
  apply (load_graph_domain_errors main.toy_library
           (single_file "net.yaml" "old") (Some "net.yaml") "YAML"
           (MyException "Unknown file format YAML")).
  reflexivity.
Defined.

Example Node__repr__with_mac :
  Node__repr__ (mkNode (Some "10.137.2.1") (Some "fe-ff-ff-ff-ff-ff"))
  = "Node IP: 10.137.2.1 [mac: fe-ff-ff-ff-ff-ff]".
Proof. reflexivity. Qed.

Example Node__repr__without_mac :
  Node__repr__ (Node1 (Some "10.137.2.16")) = "Node IP: 10.137.2.16" /\
  Node__repr__ (mkNode (Some "10.137.2.16") (Some ""))
  = "Node IP: 10.137.2.16".
Proof. split; reflexivity. Qed.

(* ------------------------------------------------------------------ *)
(** ** A Windows ARP header decides the classification *)

Lemma run_bol total s c k :
  re.run re.RBol total s c k
  = if Nat.eqb (String.length s) total then k s c else None.
Proof. reflexivity. Qed.

Lemma run_char_cons a total s c k :
  re.run (re.RChar a) total (String a s) c k = k s c.
Proof. cbn [re.run]. now rewrite Ascii.eqb_refl. Qed.

(** [cs+] matches at a character of [cs] when the rest of the pattern
    accepts wherever it is tried. *)
Lemma run_plus_accepts cs total x s c (k : re.kont) :
  re.in_set cs x = true ->
  (forall s' c', k s' c' <> None) ->
  re.run (re.RPlus (re.RSet cs)) total (String x s) c k <> None.
Proof.
  intros Hx Hk. cbn [re.run]. rewrite Hx.
  destruct (String.length s) as [|fuel]; cbn [re.more]; [apply Hk|].
  match goal with
  | |- match ?t with Some _ => _ | None => _ end <> None => destruct t
  end; [discriminate|apply Hk].
Qed.

Lemma interface_signature_compiled :
  re.compile "^Interface:\s+"
  = Some (re.seq_of
            [re.RBol; re.RChar "I"; re.RChar "n"; re.RChar "t"; re.RChar "e";
             re.RChar "r"; re.RChar "f"; re.RChar "a"; re.RChar "c";
             re.RChar "e"; re.RChar ":"; re.RPlus (re.RSet space_set)], 0).
Proof. reflexivity. Qed.

Lemma interface_signature_matches (x : ascii) (rest : string) :
  re.is_space x = true ->
  re.match_ "^Interface:\s+" ("Interface:" ++ String x rest) <> None.
Proof.
  intros Hx. unfold re.match_. rewrite interface_signature_compiled.
  cbn [re.seq_of].
  rewrite run_seq, run_bol, Nat.eqb_refl. cbn [append].
  do 10 (rewrite run_seq, run_char_cons).
  destruct (re.run _ _ _ _ _) eqn:E; [discriminate|].
  exfalso. revert E. apply run_plus_accepts.
  - cbn. now rewrite Hx.
  - discriminate.
Qed.

Lemma readlines_head (x : ascii) (t : string) :
  exists l ls, readlines (String x t) = String x l :: ls.
Proof.
  cbn [readlines]. destruct (Ascii.eqb x newline); [eauto|].
  destruct (readlines t); eauto.
Qed.

(** X23.  A file that begins with [Interface:] and a blank is classified as
    (arp, windows), whatever else it holds. *)
Theorem interface_header_classifies
        (fs : filesystem) (dumpfile : string) (x : ascii) (rest : string) :
  fs dumpfile = Some ("Interface:" ++ String x rest)%string ->
  re.is_space x = true ->
  parsers.guess_dumpfile_type_and_os fs dumpfile
  = Return (Some "arp", Some "windows").
Proof.
  intros Hfs Hx. unfold parsers.guess_dumpfile_type_and_os, open_readlines.
  rewrite Hfs. cbn [bind].
  destruct (readlines_head x rest) as (l & ls & Hl).
  remember (String x rest) as t eqn:Ht.
  cbn [append readlines Ascii.eqb Bool.eqb newline]. rewrite Hl.
  cbn [parsers.guess_lines parsers.try_signatures parsers.guess_data].
  pose proof (interface_signature_matches x l Hx) as Hm.
  cbn [append] in Hm.
  destruct (re.match_ "^Interface:\s+" _); [reflexivity|congruence].
Qed.

Lemma interface_header_classifies_witness :
  parsers.guess_dumpfile_type_and_os
    (single_file "arp2.txt" two_interfaces_dump) "arp2.txt"
  = Return (Some "arp", Some "windows").
Proof.
  apply (interface_header_classifies
           (single_file "arp2.txt" two_interfaces_dump) "arp2.txt" " "
           ("10.137.2.16 --- 0x11" ++ nl
            ++ "  10.137.2.1   fe-ff-ff-ff-ff-ff   dynamic" ++ nl
            ++ "Interface: 192.168.0.5 --- 0x12" ++ nl
            ++ "  192.168.0.1   00-16-3e-5e-6c-06   dynamic" ++ nl)%string);
    reflexivity.
Defined.

(* ------------------------------------------------------------------ *)
(** ** The two copies of [parse_windows_arp] *)

(** X24.  The copy in parsers.py and the copy in netgrapher.py raise on the same
    files and then raise the same exception; and when one returns the
    other returns, with the same centre. *)
Theorem parse_windows_arp_copies_agree
        (fs : filesystem) (dumpfile : string) (ip : option string) :
  (forall e, parsers.parse_windows_arp fs dumpfile ip = Raise e <->
             netgrapher.parse_windows_arp fs dumpfile ip = Raise e) /\
  (forall centre nodes,
      parsers.parse_windows_arp fs dumpfile ip = Return (centre, nodes) ->
      exists nodes',
        netgrapher.parse_windows_arp fs dumpfile ip
        = Return [(centre, nodes')]) /\
  (forall d,
      netgrapher.parse_windows_arp fs dumpfile ip = Return d ->
      exists centre nodes nodes',
        d = [(centre, nodes')] /\
        parsers.parse_windows_arp fs dumpfile ip = Return (centre, nodes)).
Proof.
  rewrite parsers_windows_arp_eq, netgrapher_windows_arp_eq.
  unfold open_readlines, windows_arp_answer.
  assert (Hraise : forall (x : exn),
             (forall e, @Raise (Node * list Node) x = Raise e <->
                        @Raise (list (Node * list Node)) x = Raise e) /\
             (forall centre nodes,
                 @Raise (Node * list Node) x = Return (centre, nodes) ->
                 exists nodes',
                   @Raise (list (Node * list Node)) x
                   = Return [(centre, nodes')]) /\
             (forall d,
                 @Raise (list (Node * list Node)) x = Return d ->
                 exists centre nodes nodes',
                   d = [(centre, nodes')] /\
                   @Raise (Node * list Node) x = Return (centre, nodes))).
  { intros x. split; [|split].
    - intros e. split; intros [= ->]; reflexivity.
    - intros centre nodes H. discriminate H.
    - intros d H. discriminate H. }
  destruct (fs dumpfile) as [text|]; cbn [bind]; [|apply Hraise].
  destruct (first_contradiction ip (readlines text)); cbn [bind];
    [apply Hraise|].
  destruct (centre_after (readlines text) None) as [c|];
    cbn [bind fst snd]; [|apply Hraise].
  split; [|split].
  - intros e. split; intros H; discriminate H.
  - intros centre nodes [= <- <-]. eauto.
  - intros d [= <-]. eauto.
Qed.
